(** * MediaWiki exporter and AnythingLLM uploader: a shallow embedding

    The two scripts [scripts/scrape_mediawiki.py] and
    [scripts/upload_to_anythingllm.py] are embedded as Rocq functions:

    - Python [str] values are lists of Unicode code points;
    - the two loops thread an explicit state (counters and an event log) and
      an uncaught Python exception is a value of the result type;
    - the file system and the AnythingLLM service are parameters of the
      sections that embed the code calling them; what the wiki answers for a
      page is a field of the page handle. *)

From Stdlib Require Import String Ascii.
From Stdlib Require Import PrimFloat.
From Stdlib Require Import List NArith ZArith Bool Arith Lia.
Import ListNotations.

(** ** Python strings *)

Module PyStr.

(** A Python [str] is a sequence of code points. *)
Definition char := N.
Definition str := list char.

(** An ASCII literal of the source, as a [str]. *)
Definition lit (s : string) : str :=
  map N_of_ascii (list_ascii_of_string s).

Definition in_class (cls : str) (c : char) : bool :=
  existsb (N.eqb c) cls.

(** [\s] of the [re] module on a [str] pattern: the code points for which
    CPython's [Py_UNICODE_ISSPACE] holds. *)
Definition isspace (c : char) : bool :=
  ((9 <=? c) && (c <=? 13)            (* \t \n \v \f \r *)
   || (28 <=? c) && (c <=? 32)        (* FS GS RS US and the space *)
   || (c =? 133) || (c =? 160)        (* NEL, no-break space *)
   || (c =? 5760)                     (* ogham space mark *)
   || (8192 <=? c) && (c <=? 8202)    (* en quad .. hair space *)
   || (c =? 8232) || (c =? 8233)      (* line and paragraph separators *)
   || (c =? 8239) || (c =? 8287)      (* narrow no-break, medium math space *)
   || (c =? 12288))%N.                (* ideographic space *)

(** [re.sub('[cls]', repl, s)]: every character of the class is replaced. *)
Definition re_sub_class (cls : char -> bool) (repl s : str) : str :=
  flat_map (fun c => if cls c then repl else [c]) s.

(** [re.sub('[cls]+', repl, s)]: every maximal run of characters of the
    class is replaced by one [repl].  [in_run] tells that the character
    before the current one belonged to a run already replaced. *)
Fixpoint re_sub_run (cls : char -> bool) (repl : str) (in_run : bool)
         (s : str) : str :=
  match s with
  | [] => []
  | c :: rest =>
      if cls c
      then (if in_run then [] else repl) ++ re_sub_run cls repl true rest
      else c :: re_sub_run cls repl false rest
  end.

Definition re_sub_class_plus (cls : char -> bool) (repl s : str) : str :=
  re_sub_run cls repl false s.

(** [s.lstrip(chars)], [s.rstrip(chars)] and [s.strip(chars)]. *)
Fixpoint lstrip (chars : char -> bool) (s : str) : str :=
  match s with
  | [] => []
  | c :: rest => if chars c then lstrip chars rest else s
  end.

Definition rstrip (chars : char -> bool) (s : str) : str :=
  rev (lstrip chars (rev s)).

Definition strip (chars : char -> bool) (s : str) : str :=
  rstrip chars (lstrip chars s).

(** [s.startswith(c)] and [s.endswith(c)] for a one-character [c]. *)
Definition startswith (c : char) (s : str) : bool :=
  match s with
  | [] => false
  | x :: _ => N.eqb x c
  end.

Definition endswith (c : char) (s : str) : bool :=
  startswith c (rev s).

Fixpoint str_eqb (a b : str) : bool :=
  match a, b with
  | [], [] => true
  | x :: a', y :: b' => N.eqb x y && str_eqb a' b'
  | _, _ => false
  end.

(** [sub in s]. *)
Definition contains (sub s : str) : Prop :=
  exists before after, s = before ++ sub ++ after.

(** [s.startswith(prefix)]. *)
Fixpoint has_prefix (prefix s : str) : bool :=
  match prefix, s with
  | [], _ => true
  | _ :: _, [] => false
  | x :: prefix', y :: s' => N.eqb x y && has_prefix prefix' s'
  end.

(** [s.replace(old, new)] for a non-empty [old]: the occurrences are taken
    from left to right and do not overlap.  [skip] is the number of
    characters of the occurrence just replaced that are still to be passed. *)
Fixpoint replace_scan (old new : str) (skip : nat) (s : str) : str :=
  match s with
  | [] => []
  | c :: rest =>
      match skip with
      | S k => replace_scan old new k rest
      | 0 =>
          if has_prefix old s
          then new ++ replace_scan old new (length old - 1) rest
          else c :: replace_scan old new 0 rest
      end
  end.

Definition replace (old new s : str) : str := replace_scan old new 0 s.

(** [old in s], for a non-empty [old]. *)
Fixpoint occurs (old s : str) : bool :=
  match s with
  | [] => false
  | _ :: rest => has_prefix old s || occurs old rest
  end.

End PyStr.

Import PyStr.

(** ** Python exceptions and the state-and-exception monad of the loops *)

Module Py.

(** The exceptions the modelled code can meet.  All of them derive from
    [Exception], so an [except Exception] clause catches every one. *)
Inductive exn : Type :=
| IndexError
| KeyError
| TypeError
| AttributeError
| OtherException (what : str).

Definition result (A : Type) : Type := (exn + A)%type.

(** A statement runs on a state and ends normally with a value or with an
    exception; the state reached when the exception was raised is kept. *)
Definition M (St A : Type) : Type := St -> St * result A.

Definition ret {St A} (a : A) : M St A := fun s => (s, inr a).

Definition bind {St A B} (m : M St A) (k : A -> M St B) : M St B :=
  fun s =>
    match m s with
    | (s', inr a) => k a s'
    | (s', inl e) => (s', inl e)
    end.

Definition lift {St A} (r : result A) : M St A := fun s => (s, r).

Definition modify {St} (f : St -> St) : M St unit := fun s => (f s, inr tt).

(** [try: body except Exception as e: handler e]. *)
Definition try_except {St A} (body : M St A) (handler : exn -> M St A)
  : M St A :=
  fun s =>
    match body s with
    | (s', inl e) => handler e s'
    | (s', inr a) => (s', inr a)
    end.

(** [for i, x in enumerate(xs, start): body i x], with no [break]. *)
Fixpoint for_enumerate {St A} (body : nat -> A -> M St unit) (start : nat)
         (xs : list A) : M St unit :=
  match xs with
  | [] => ret tt
  | x :: rest => bind (body start x) (fun _ => for_enumerate body (S start) rest)
  end.

Declare Scope py_scope.
Delimit Scope py_scope with py.
Notation "x <- m ;; k" := (bind m (fun x => k))
  (at level 100, m at next level, right associativity) : py_scope.
Notation "m ;; k" := (bind m (fun _ => k))
  (at level 100, right associativity) : py_scope.

End Py.

Import Py.

(** ** The exporter: [scrape_mediawiki.py] *)

Module Scraper.

(** The character class of the first [re.sub] of [sanitize_filename], in
    the order of the source: less-than, greater-than, colon, double quote,
    slash, backslash, vertical bar, question mark, asterisk. *)
Definition unsafe_chars : str :=
  [60; 62; 58; 34; 47; 92; 124; 63; 42]%N.

Definition underscore : char := 95%N.
Definition period : char := 46%N.

(** [safe_name] after the two substitutions and the strip (line 32). *)
Definition stripped_name (title : str) : str :=
  let safe_name := re_sub_class (in_class unsafe_chars) (lit "_") title in
  let safe_name := re_sub_class_plus isspace (lit "_") safe_name in
  strip (in_class (lit "._")) safe_name.

Definition sanitize_filename (title : str) : str :=
  let safe_name := stripped_name title in
  if 200 <? length safe_name then firstn 200 safe_name else safe_name.

(** A page handle of [mwclient]: its title, what the network call
    [page.text()] gives (the wikitext or an exception), and the rendering
    of its [touched] attribute when it has one. *)
Record page : Type := Page {
  name : str;
  text : result str;
  touched : option str
}.

Definition newline : str := [10%N].

(** The f-string of [get_page_content]. *)
Definition format_page (title body : str) (last_modified : option str) : str :=
  lit "# " ++ title ++ newline
  ++ newline
  ++ body ++ newline
  ++ newline
  ++ lit "---" ++ newline
  ++ lit "Source: MediaWiki" ++ newline
  ++ lit "Page: " ++ title ++ newline
  ++ lit "Last Modified: "
  ++ match last_modified with Some t => t | None => lit "Unknown" end
  ++ newline.

(** What the script prints inside the loop, and the files it writes. *)
Inductive message : Type :=
| MsgExporting (number : nat) (title : str)
| MsgContentWarning (title : str) (e : exn)
| MsgReachedLimit (limit : Z)
| MsgProcessingError (e : exn).

Inductive event : Type :=
| Print (m : message)
| WriteFile (filename content : str).

Record state : Type := State {
  exported_count : nat;
  error_count : nat;
  out : list event
}.

Definition initial : state := State 0 0 [].

Definition emit (e : event) : M state unit :=
  modify (fun s => State (exported_count s) (error_count s) (out s ++ [e])).

Definition incr_exported : M state unit :=
  modify (fun s => State (exported_count s + 1) (error_count s) (out s)).

Definition incr_error : M state unit :=
  modify (fun s => State (exported_count s) (error_count s + 1) (out s)).

Local Open Scope py_scope.

(** [get_page_content]: [None] is returned after any exception. *)
Definition get_page_content (p : page) : M state (option str) :=
  try_except
    (body <- lift (text p) ;;
     ret (Some (format_page (name p) body (touched p))))
    (fun e => emit (Print (MsgContentWarning (name p) e)) ;; ret None).

(** [limit and i >= limit], for [limit] an [int] or [None]. *)
Definition limit_reached (limit : option Z) (i : nat) : bool :=
  match limit with
  | None => false
  | Some l => negb (l =? 0)%Z && (l <=? Z.of_nat i)%Z
  end.

(** The name of the file a page is written to, line 136. *)
Definition filename_of (p : page) : str :=
  sanitize_filename (name p) ++ lit ".txt".

Section Loop.

(** The file system: [open(filepath, 'w')] on a file name of the output
    directory either succeeds or raises. *)
Variable open_for_writing : str -> result unit.

Definition write_file (filename content : str) : M state unit :=
  lift (open_for_writing filename) ;;
  emit (WriteFile filename content).

(** The body of the loop, lines 125 to 146. *)
Definition export_page (i : nat) (p : page) : M state unit :=
  try_except
    (let title := name p in
     emit (Print (MsgExporting (i + 1) title)) ;;
     content <- get_page_content p ;;
     match content with
     | None => incr_error
     | Some content =>
         let filename := sanitize_filename title ++ lit ".txt" in
         write_file filename content ;;
         incr_exported
     end)
    (fun e => emit (Print (MsgProcessingError e)) ;; incr_error).

(** [for i, page in enumerate(pages)], lines 120 to 146, with its [break].
    The pages are the finite sequence the iterator of [site.allpages]
    yields. *)
Fixpoint export_loop (limit : option Z) (i : nat) (pages : list page)
  : M state unit :=
  match pages with
  | [] => ret tt
  | p :: rest =>
      if limit_reached limit i
      then match limit with
           | Some l => emit (Print (MsgReachedLimit l))
           | None => ret tt
           end
      else export_page i p ;; export_loop limit (i + 1) rest
  end.

Definition scrape_pages (limit : option Z) (pages : list page)
  : state * result unit :=
  export_loop limit 0 pages initial.

(** What one run of the loop body adds to the log after its first line,
    and whether it counts the page as exported. *)
Definition page_events (p : page) : list event :=
  match text p with
  | inl e => [Print (MsgContentWarning (name p) e)]
  | inr body =>
      match open_for_writing (filename_of p) with
      | inr _ =>
          [WriteFile (filename_of p) (format_page (name p) body (touched p))]
      | inl e => [Print (MsgProcessingError e)]
      end
  end.

Definition page_exported (p : page) : bool :=
  match text p, open_for_writing (filename_of p) with
  | inr _, inr _ => true
  | _, _ => false
  end.

End Loop.

(** The pages the loop body ran on: one [Exporting] line each. *)
Definition is_exporting (e : event) : bool :=
  match e with Print (MsgExporting _ _) => true | _ => false end.

Definition is_write (e : event) : bool :=
  match e with WriteFile _ _ => true | _ => false end.

Definition pages_processed (s : state) : nat :=
  length (filter is_exporting (out s)).

Definition files_written (s : state) : nat :=
  length (filter is_write (out s)).

Definition fetch_fails (p : page) : bool :=
  match text p with inl _ => true | inr _ => false end.

(** The number of pages the loop body runs on, for a limit and [n] pages
    left from index [i] on. *)
Definition pages_to_process (limit : option Z) (i n : nat) : nat :=
  match limit with
  | None => n
  | Some l => if (l =? 0)%Z then n else Nat.min n (Z.to_nat l - i)
  end.

(** Three pages, the second of which cannot be fetched. *)
Definition example_pages : list page :=
  [ Page (lit "Main Page") (inr (lit "Welcome.")) (Some (lit "2024-01-01"));
    Page (lit "Broken") (inl (OtherException (lit "timed out"))) None;
    Page (lit "A/B") (inr (lit "Text")) None ].

(** Lines 84 to 90 of [scrape_mediawiki]: the scheme and the URL that are
    given to [mwclient.Site]. *)
Definition split_scheme (wiki_url : str) : str * str :=
  if has_prefix (lit "http://") wiki_url
  then (lit "http", replace (lit "http://") [] wiki_url)
  else if has_prefix (lit "https://") wiki_url
       then (lit "https", replace (lit "https://") [] wiki_url)
       else (lit "https", wiki_url).



(** The characters that line 30, 31 or 32 of [sanitize_filename] takes
    away from the ends of a title: those of the class of the first
    substitution, the whitespace, the underscore and the period. *)
Definition strippable (c : char) : bool :=
  in_class unsafe_chars c || isspace c || in_class (lit "._") c.

(** A title on which the two substitutions have nothing to replace. *)
Definition plain (c : char) : bool :=
  negb (in_class unsafe_chars c) && negb (isspace c).

End Scraper.

(** ** The uploader: [upload_to_anythingllm.py] *)

Module Uploader.

(** What [resp.json()] can return. *)
#[warnings="-register-all"]
Inductive json : Type :=
| JNull
| JBool (b : bool)
| JInt (n : Z)
| JFloat (x : float)
| JStr (s : str)
| JArr (items : list json)
| JObj (members : list (str * json)).

(** Truth value of a decoded JSON value, as [if v:] tests it. *)
Definition truthy (v : json) : bool :=
  match v with
  | JNull => false
  | JBool b => b
  | JInt n => negb (n =? 0)%Z
  | JFloat x => negb (PrimFloat.eqb x 0%float)
  | JStr s => negb (str_eqb s [])
  | JArr [] => false
  | JArr (_ :: _) => true
  | JObj [] => false
  | JObj (_ :: _) => true
  end.

(** The keys of a decoded object are distinct; the first binding of a key
    is the only one. *)
Fixpoint dict_lookup (key : str) (members : list (str * json)) : option json :=
  match members with
  | [] => None
  | (k, v) :: rest => if str_eqb k key then Some v else dict_lookup key rest
  end.

(** [v.get(key, default)]: only a [dict] has the method. *)
Definition py_get (v : json) (key : str) (default : json) : result json :=
  match v with
  | JObj members =>
      inr (match dict_lookup key members with
           | Some x => x
           | None => default
           end)
  | _ => inl AttributeError
  end.

(** [v[0]]. *)
Definition py_item0 (v : json) : result json :=
  match v with
  | JArr (x :: _) => inr x
  | JArr [] => inl IndexError
  | JStr (c :: _) => inr (JStr [c])
  | JStr [] => inl IndexError
  | JObj _ => inl KeyError
  | JNull | JBool _ | JInt _ | JFloat _ => inl TypeError
  end.

(** [result.get('documents', [{}])[0].get('location')], line 185. *)
Definition document_location (result : json) : Py.result json :=
  match py_get result (lit "documents") (JArr [JObj []]) with
  | inl e => inl e
  | inr documents =>
      match py_item0 documents with
      | inl e => inl e
      | inr first => py_get first (lit "location") JNull
      end
  end.

(** A [Path]: its components. *)
Definition path := list str.

Definition joinpath (p : path) (child : str) : path := p ++ [child].
Definition path_name (p : path) : str := last p [].
Definition parent (p : path) : path := removelast p.

(** [name.rfind('.')]: the highest index of the character, or -1. *)
Fixpoint rfind (c : char) (s : str) : Z :=
  match s with
  | [] => (-1)%Z
  | x :: rest =>
      let i := rfind c rest in
      if (0 <=? i)%Z then (i + 1)%Z
      else if N.eqb x c then 0%Z else (-1)%Z
  end.

(** [PurePath.suffix] of pathlib. *)
Definition suffix (p : path) : str :=
  let name := path_name p in
  let i := rfind 46%N name in
  if ((0 <? i) && (i <? Z.of_nat (length name) - 1))%Z
  then skipn (Z.to_nat i) name
  else [].

Definition extensions : list str :=
  [lit ".txt"; lit ".md"; lit ".pdf"; lit ".docx"; lit ".doc"; lit ".html";
   lit ".htm"].

(** The lowercase of an ASCII code point. *)
Definition ascii_lower (c : char) : char :=
  if ((65 <=? c) && (c <=? 90))%N then (c + 32)%N else c.

(** [s] and [ext] are the same up to the case of ASCII letters, where [ext]
    is in lowercase. *)
Definition same_up_to_case (s ext : str) : Prop :=
  Forall2 (fun c e => c = e \/ ((65 <= c <= 90)%N /\ e = (c + 32)%N)) s ext.

(** The code points that occur in the allow-list. *)
Definition allow_list_char (x : char) : bool :=
  existsb (fun e => in_class e x) extensions.

Section Enumeration.

(** [str.lower()] maps an ASCII code point to its ASCII lowercase.  For
    a code point outside ASCII CPython consults the Unicode tables (and,
    for the capital sigma, the neighbouring characters): that expansion
    is the parameter [lower_nonascii s i], for the code point at index
    [i] of [s]. *)
Variable lower_nonascii : str -> nat -> str.

Definition lower_at (s : str) (i : nat) (c : char) : str :=
  if (c <? 128)%N
  then [ascii_lower c]
  else lower_nonascii s i.

Fixpoint lower_from (s : str) (i : nat) (rest : str) : str :=
  match rest with
  | [] => []
  | c :: rest' => lower_at s i c ++ lower_from s (S i) rest'
  end.

Definition lower (s : str) : str := lower_from s 0 s.

(** The file system as the script observes it: the names [os.listdir]
    gives for a directory, in its order, and [Path.is_file]. *)
Variable listdir : path -> list str.
Variable is_file : path -> bool.

Definition iterdir (p : path) : list path :=
  map (joinpath p) (listdir p).

(** The list comprehension of line 163. *)
Definition candidate_files (docs_path : path) : list path :=
  filter
    (fun f => is_file f && existsb (str_eqb (lower (suffix f))) extensions)
    (iterdir docs_path).

End Enumeration.

Inductive message : Type :=
| MsgUploading (number total : nat) (filename : str)
| MsgUploadError (filename : str) (e : exn)
| MsgEmbedding
| MsgEmbedded
| MsgEmbeddingFailed
| MsgEmbedError (e : exn).

(** What the loop does to the outside: lines printed, the two requests
    (recorded when the client method starts them) and [time.sleep]. *)
Inductive event : Type :=
| Print (m : message)
| PostUpload (file_path : path)
| PostUpdateEmbeddings (workspace_slug location : json)
| Sleep (milliseconds : N).

Definition is_sleep (e : event) : bool :=
  match e with Sleep _ => true | _ => false end.

Definition is_post_upload (e : event) : bool :=
  match e with PostUpload _ => true | _ => false end.

Definition is_embedding_request (e : event) : bool :=
  match e with PostUpdateEmbeddings _ _ => true | _ => false end.

(** The upload requests and the embedding requests of a log. *)
Definition upload_requests (log : list event) : list event :=
  filter is_post_upload log.

Definition embedding_requests (log : list event) : list event :=
  filter is_embedding_request log.

(** Whether every upload request of a log comes after a pause that follows
    the request before it.  [pending] tells that a request was met and no
    pause since. *)
Fixpoint paused_between_uploads (pending : bool) (log : list event) : bool :=
  match log with
  | [] => true
  | PostUpload _ :: rest => negb pending && paused_between_uploads true rest
  | Sleep _ :: rest => paused_between_uploads false rest
  | _ :: rest => paused_between_uploads pending rest
  end.

(** A response that is a dict whose [documents] entry, when present, is a
    list starting with a dict: line 185 raises nothing on it. *)
Definition well_formed_response (result : json) : bool :=
  match result with
  | JObj members =>
      match dict_lookup (lit "documents") members with
      | None => true
      | Some (JArr (JObj _ :: _)) => true
      | Some _ => false
      end
  | _ => false
  end.

Section Loop.

(** The AnythingLLM service behind [requests]: a state, and for each of
    the two calls of the loop what the request, [raise_for_status] and
    the decoding of the body give. *)
Context {service : Type}.
Variable post_upload : service -> path -> service * result json.
Variable post_update_embeddings :
  service -> json -> json -> service * result unit.

Record state : Type := State {
  uploaded : nat;
  embedded : nat;
  server : service;
  out : list event
}.

Definition initial (sv : service) : state := State 0 0 sv [].

Definition emit (e : event) : M state unit :=
  modify (fun s => State (uploaded s) (embedded s) (server s) (out s ++ [e])).

Definition incr_uploaded : M state unit :=
  modify (fun s => State (uploaded s + 1) (embedded s) (server s) (out s)).

Definition incr_embedded : M state unit :=
  modify (fun s => State (uploaded s) (embedded s + 1) (server s) (out s)).

Definition call {A} (request : service -> service * result A) : M state A :=
  fun s =>
    let (sv, r) := request (server s) in
    (State (uploaded s) (embedded s) sv (out s), r).

Local Open Scope py_scope.

(** [AnythingLLMClient.upload_document]: an empty dict after any
    exception. *)
Definition upload_document (file_path : path) : M state json :=
  try_except
    (emit (PostUpload file_path) ;;
     call (fun sv => post_upload sv file_path))
    (fun e =>
       emit (Print (MsgUploadError (path_name file_path) e)) ;;
       ret (JObj [])).

(** [AnythingLLMClient.add_document_to_workspace]. *)
Definition add_document_to_workspace (workspace_slug document_location : json)
  : M state bool :=
  try_except
    (emit (PostUpdateEmbeddings workspace_slug document_location) ;;
     call (fun sv => post_update_embeddings sv workspace_slug document_location) ;;
     ret true)
    (fun e => emit (Print (MsgEmbedError e)) ;; ret false).

(** The body of the loop, lines 176 to 195. *)
Definition upload_file (workspace_slug : json) (total i : nat)
           (file_path : path) : M state unit :=
  emit (Print (MsgUploading i total (path_name file_path))) ;;
  result <- upload_document file_path ;;
  if negb (truthy result) then ret tt
  else
    incr_uploaded ;;
    doc_location <- lift (document_location result) ;;
    (if truthy doc_location
     then
       emit (Print MsgEmbedding) ;;
       ok <- add_document_to_workspace workspace_slug doc_location ;;
       if ok : bool
       then incr_embedded ;; emit (Print MsgEmbedded)
       else emit (Print MsgEmbeddingFailed)
     else ret tt) ;;
    emit (Sleep 500).

(** [for i, file_path in enumerate(files, 1)], lines 175 to 195. *)
Definition upload_loop (workspace_slug : json) (files : list path)
  : M state unit :=
  for_enumerate (upload_file workspace_slug (length files)) 1 files.

(** The state the loop is in once it has gone through the first [k]
    files, or the state in which it was left by an exception. *)
Definition state_after (workspace_slug : json) (files : list path)
           (sv : service) (k : nat) : state :=
  fst (for_enumerate (upload_file workspace_slug (length files)) 1
         (firstn k files) (initial sv)).

(** The pauses of a run. *)
Definition pauses (s : state) : nat := length (filter is_sleep (out s)).

End Loop.

(** [self.base_url] of [AnythingLLMClient.__init__], and the URL of the
    liveness check built from it. *)
Definition client_base_url (base_url : str) : str :=
  rstrip (in_class (lit "/")) base_url.

Definition ping_url (base_url : str) : str :=
  client_base_url base_url ++ lit "/api/ping".

(** A service for the examples: it answers the requests from two lists, in
    order, and refuses the connection once a list is used up. *)
Record scripted : Type := Scripted {
  upload_answers : list (result json);
  embedding_answers : list (result unit)
}.

Definition connection_error : exn := OtherException (lit "ConnectionError").

Definition scripted_upload (sv : scripted) (file_path : path)
  : scripted * result json :=
  match upload_answers sv with
  | answer :: rest => (Scripted rest (embedding_answers sv), answer)
  | [] => (sv, inl connection_error)
  end.

Definition scripted_update_embeddings (sv : scripted)
           (workspace_slug location : json) : scripted * result unit :=
  match embedding_answers sv with
  | answer :: rest => (Scripted (upload_answers sv) rest, answer)
  | [] => (sv, inl connection_error)
  end.

(** A directory for the examples: three files of the allow-list, one of
    them with its extension in capitals, a file with another extension and
    a subdirectory holding a text file. *)
Definition docs : path := [lit "wiki_export"].

Definition example_listdir (p : path) : list str :=
  if list_eq_dec (list_eq_dec N.eq_dec) p docs
  then [lit "a.txt"; lit "b.md"; lit "c.exe"; lit "sub"; lit "NOTES.TXT"]
  else if list_eq_dec (list_eq_dec N.eq_dec) p (joinpath docs (lit "sub"))
       then [lit "deep.txt"]
       else [].

Definition example_is_file (p : path) : bool :=
  negb (str_eqb (path_name p) (lit "sub")).

(** A lowercase mapping that leaves the code points outside ASCII as they
    are. *)
Definition identity_lower (s : str) (i : nat) : str :=
  match nth_error s i with
  | Some c => [c]
  | None => []
  end.

Definition example_files : list path :=
  [joinpath docs (lit "a.txt"); joinpath docs (lit "b.md")].

Definition example_slug : json := JStr (lit "mediawiki-import").

(** The upload of the first file is answered by a body with an empty
    [documents] list. *)
Definition empty_documents_service : scripted :=
  Scripted
    [inr (JObj [(lit "success", JBool true); (lit "error", JNull);
                (lit "documents", JArr [])])]
    [].

(** The upload of the first file fails with a server error; the second
    file is uploaded and embedded. *)
Definition first_upload_fails_service : scripted :=
  Scripted
    [inl (OtherException (lit "HTTPError: 500 Server Error"));
     inr (JObj [(lit "success", JBool true);
                (lit "documents",
                 JArr [JObj [(lit "location",
                              JStr (lit "custom-documents/b.md.json"))]])])]
    [inr tt].

(** Both files are uploaded; the embedding of the second one fails. *)
Definition second_embedding_fails_service : scripted :=
  Scripted
    [inr (JObj [(lit "documents",
                 JArr [JObj [(lit "location",
                              JStr (lit "custom-documents/a.txt.json"))]])]);
     inr (JObj [(lit "documents",
                 JArr [JObj [(lit "location",
                              JStr (lit "custom-documents/b.md.json"))]])])]
    [inr tt; inl (OtherException (lit "HTTPError: 500 Server Error"))].

(** *** The whole of [upload_documents] *)

(** How a run can stop before its end: [sys.exit], which no
    [except Exception] catches, or an exception that nothing catches. *)
Inductive stop : Type :=
| SystemExit (code : Z)
| Uncaught (e : exn).

Definition R (St A : Type) : Type := St -> St * (stop + A).

Definition run_ret {St A} (a : A) : R St A := fun s => (s, inr a).

Definition run_bind {St A B} (m : R St A) (k : A -> R St B) : R St B :=
  fun s =>
    match m s with
    | (s', inr a) => k a s'
    | (s', inl why) => (s', inl why)
    end.

Definition sys_exit {St A} (code : Z) : R St A :=
  fun s => (s, inl (SystemExit code)).

(** A statement outside any [try]. *)
Definition run_py {St A} (m : M St A) : R St A :=
  fun s =>
    match m s with
    | (s', inr a) => (s', inr a)
    | (s', inl e) => (s', inl (Uncaught e))
    end.

Declare Scope run_scope.
Delimit Scope run_scope with run.
Notation "x <- m ;; k" := (run_bind m (fun x => k))
  (at level 100, m at next level, right associativity) : run_scope.
Notation "m ;; k" := (run_bind m (fun _ => k))
  (at level 100, right associativity) : run_scope.

Inductive setup_message : Type :=
| MsgConnecting (url : str)
| MsgPingFailed (e : exn)
| MsgCannotConnect
| MsgConnected
| MsgLookingFor (workspace_name : str)
| MsgWorkspacesError (e : exn)
| MsgFoundWorkspace (workspace_name : str)
| MsgCreatingWorkspace (workspace_name : str)
| MsgCreateError (e : exn)
| MsgCreateFailed
| MsgSlug (workspace_slug : json)
| MsgNoDirectory (docs_path : path)
| MsgNoDocuments (docs_path : path)
| MsgFoundDocuments (number : nat).

Inductive setup_event : Type :=
| SetupPrint (m : setup_message)
| GetPing
| GetWorkspaces
| PostNewWorkspace (workspace_name : str).

Definition is_setup_request (e : setup_event) : bool :=
  match e with SetupPrint _ => false | _ => true end.

Definition setup_requests (log : list setup_event) : list setup_event :=
  filter is_setup_request log.

(** [for ws in v]: the items of a list, the characters of a string, the
    keys of a dict; nothing else can be iterated. *)
Definition py_iter (v : json) : result (list json) :=
  match v with
  | JArr items => inr items
  | JStr s => inr (map (fun c => JStr [c]) s)
  | JObj members => inr (map (fun kv => JStr (fst kv)) members)
  | JNull | JBool _ | JInt _ | JFloat _ => inl TypeError
  end.

(** [v == s] for a [str] [s]. *)
Definition json_is_str (v : json) (s : str) : bool :=
  match v with
  | JStr x => str_eqb x s
  | _ => false
  end.

(** The loop of lines 138 to 141: the first item whose [name] is the
    wanted one; an item met before it that is not a dict raises. *)
Fixpoint find_workspace (workspace_name : str) (workspaces : list json)
  : result (option json) :=
  match workspaces with
  | [] => inr None
  | ws :: rest =>
      match py_get ws (lit "name") JNull with
      | inl e => inl e
      | inr n =>
          if json_is_str n workspace_name then inr (Some ws)
          else find_workspace workspace_name rest
      end
  end.

Section Run.

(** The service, with what each request of the client gives (for [ping]
    the status code of the answer, for the others the decoded body once
    [raise_for_status] has passed), and the file system. *)
Context {service : Type}.
Variable get_ping : service -> service * result Z.
Variable get_workspaces_body : service -> service * result json.
Variable post_new_workspace : service -> str -> service * result json.
Variable post_upload : service -> path -> service * result json.
Variable post_update_embeddings :
  service -> json -> json -> service * result unit.
Variable lower_nonascii : str -> nat -> str.
Variable path_exists : path -> bool.
Variable scandir : path -> result (list str).
Variable is_file : path -> bool.

Record setup_state : Type := Setup {
  setup_server : service;
  setup_out : list setup_event
}.

Definition note (e : setup_event) : M setup_state unit :=
  modify (fun s => Setup (setup_server s) (setup_out s ++ [e])).

Definition setup_call {A} (request : service -> service * result A)
  : M setup_state A :=
  fun s =>
    let (sv, r) := request (setup_server s) in
    (Setup sv (setup_out s), r).

Local Open Scope py_scope.

(** [AnythingLLMClient.ping]. *)
Definition ping : M setup_state bool :=
  try_except
    (note GetPing ;;
     status_code <- setup_call get_ping ;;
     ret (status_code =? 200)%Z)
    (fun e => note (SetupPrint (MsgPingFailed e)) ;; ret false).

(** [AnythingLLMClient.get_workspaces]. *)
Definition get_workspaces : M setup_state json :=
  try_except
    (note GetWorkspaces ;;
     body <- setup_call get_workspaces_body ;;
     lift (py_get body (lit "workspaces") (JArr [])))
    (fun e => note (SetupPrint (MsgWorkspacesError e)) ;; ret (JArr [])).

(** [AnythingLLMClient.create_workspace]. *)
Definition create_workspace (name : str) : M setup_state json :=
  try_except
    (note (PostNewWorkspace name) ;;
     body <- setup_call (fun sv => post_new_workspace sv name) ;;
     lift (py_get body (lit "workspace") (JObj [])))
    (fun e => note (SetupPrint (MsgCreateError e)) ;; ret (JObj [])).

Local Close Scope py_scope.
Local Open Scope run_scope.

Definition say (m : setup_message) : R setup_state unit :=
  run_py (note (SetupPrint m)).

(** Lines 134 to 150: the workspace of the given name, found or created. *)
Definition resolve_workspace (workspace_name : str) : R setup_state json :=
  say (MsgLookingFor workspace_name) ;;
  workspaces <- run_py get_workspaces ;;
  items <- run_py (lift (py_iter workspaces)) ;;
  found <- run_py (lift (find_workspace workspace_name items)) ;;
  let workspace := match found with Some ws => ws | None => JNull end in
  if truthy workspace
  then say (MsgFoundWorkspace workspace_name) ;; run_ret workspace
  else
    say (MsgCreatingWorkspace workspace_name) ;;
    workspace <- run_py (create_workspace workspace_name) ;;
    if negb (truthy workspace)
    then say MsgCreateFailed ;; sys_exit 1
    else run_ret workspace.

(** [upload_documents] up to the end of its loop: the state the loop ends
    in and how it ends. *)
Definition upload_documents (anythingllm_url workspace_name : str)
           (documents_dir : path) : R setup_state (state * result unit) :=
  say (MsgConnecting anythingllm_url) ;;
  reachable <- run_py ping ;;
  (if negb reachable then say MsgCannotConnect ;; sys_exit 1
   else run_ret tt) ;;
  say MsgConnected ;;
  workspace <- resolve_workspace workspace_name ;;
  workspace_slug <- run_py (lift (py_get workspace (lit "slug") JNull)) ;;
  say (MsgSlug workspace_slug) ;;
  (if negb (path_exists documents_dir)
   then say (MsgNoDirectory documents_dir) ;; sys_exit 1
   else run_ret tt) ;;
  names <- run_py (lift (scandir documents_dir)) ;;
  let files :=
    candidate_files lower_nonascii (fun _ => names) is_file documents_dir in
  (match files with
   | [] => say (MsgNoDocuments documents_dir) ;; sys_exit 1
   | _ :: _ => run_ret tt
   end) ;;
  say (MsgFoundDocuments (length files)) ;;
  fun s =>
    (s, inr (upload_loop post_upload post_update_embeddings workspace_slug
               files (initial (setup_server s)))).

End Run.

(** Answers for the examples of the setup, from a service without state. *)
Definition import_workspace : json :=
  JObj [(lit "id", JInt 7); (lit "name", JStr (lit "MediaWiki Import"));
        (lit "slug", JStr (lit "mediawiki-import"))].

Definition ping_up (sv : unit) : unit * result Z := (tt, inr 200%Z).

Definition ping_down (sv : unit) : unit * result Z :=
  (tt, inl connection_error).

Definition listing_with_import (sv : unit) : unit * result json :=
  (tt, inr (JObj [(lit "workspaces",
                   JArr [JObj [(lit "name", JStr (lit "Notes"));
                               (lit "slug", JStr (lit "notes"))];
                         import_workspace])])).

Definition listing_empty (sv : unit) : unit * result json :=
  (tt, inr (JObj [(lit "workspaces", JArr [])])).

Definition listing_down (sv : unit) : unit * result json :=
  (tt, inl connection_error).

Definition create_refused (sv : unit) (name : str) : unit * result json :=
  (tt, inl (OtherException (lit "HTTPError: 403 Forbidden"))).

Definition create_granted (sv : unit) (name : str) : unit * result json :=
  (tt, inr (JObj [(lit "workspace",
                   JObj [(lit "name", JStr name);
                         (lit "slug", JStr (lit "mediawiki-import-2"))]);
                  (lit "message", JNull)])).

(** A service without state that stores every file and embeds it. *)
Definition steady_upload (sv : unit) (file_path : path) : unit * result json :=
  (tt, inr (JObj [(lit "success", JBool true);
                  (lit "documents",
                   JArr [JObj [(lit "location",
                                JStr (lit "custom-documents/"
                                      ++ path_name file_path))]])])).

Definition steady_update_embeddings (sv : unit)
           (workspace_slug location : json) : unit * result unit :=
  (tt, inr tt).

(** A service without state that accepts every file and names no document
    in its answer. *)
Definition silent_upload (sv : unit) (file_path : path) : unit * result json :=
  (tt, inr (JObj [(lit "success", JBool true)])).

(** A service without state that refuses every upload. *)
Definition failing_upload (sv : unit) (file_path : path) : unit * result json :=
  (tt, inl (OtherException (lit "HTTPError: 500 Server Error"))).

End Uploader.

(** * Properties *)

(** ** Running a sequence of statements *)

Lemma bind_ok {St A B} (m : M St A) (k : A -> M St B) s s' a :
  m s = (s', inr a) -> bind m k s = k a s'.
Proof. intros H. unfold bind. rewrite H. reflexivity. Qed.

(** ** The filename sanitizer *)

Import Scraper.

(** C2 (as the code behaves): on the title [Hello/World: Test?] the slash
    and the question mark each become an underscore, the colon becomes an
    underscore and the space after it a second one, and the final underscore
    is stripped: the result is [Hello_World__Test]. *)
Theorem sanitize_filename_hello_world :
  sanitize_filename (lit "Hello/World: Test?") = lit "Hello_World__Test".
Proof. vm_compute. reflexivity. Qed.

(** C2 (as the spec states it): the result is not [Hello_World_Test]. *)
Lemma sanitize_filename_hello_world_not_single_underscore :
  sanitize_filename (lit "Hello/World: Test?") <> lit "Hello_World_Test".
Proof. vm_compute. discriminate. Qed.

Section StringLemmas.

Variable P : char -> Prop.

Lemma re_sub_class_Forall cls repl s :
  Forall P repl ->
  Forall (fun c => cls c = false -> P c) s ->
  Forall P (re_sub_class cls repl s).
Proof.
  intros Hrepl Hs. unfold re_sub_class.
  induction Hs as [|c s Hc _ IH]; simpl.
  - constructor.
  - apply Forall_app. split; [|exact IH].
    destruct (cls c); [exact Hrepl|]. constructor; auto.
Qed.

Lemma re_sub_run_Forall cls repl in_run s :
  Forall P repl -> Forall P s -> Forall P (re_sub_run cls repl in_run s).
Proof.
  intros Hrepl Hs. revert in_run.
  induction Hs as [|c s Hc _ IH]; intros in_run; simpl.
  - constructor.
  - destruct (cls c).
    + apply Forall_app. split; [|apply IH].
      destruct in_run; [constructor | exact Hrepl].
    + constructor; [exact Hc | apply IH].
Qed.

Lemma lstrip_Forall chars s : Forall P s -> Forall P (lstrip chars s).
Proof.
  induction 1 as [|c s Hc Hs IH]; simpl.
  - constructor.
  - destruct (chars c); [exact IH | constructor; assumption].
Qed.

Lemma strip_Forall chars s : Forall P s -> Forall P (strip chars s).
Proof.
  intros Hs. unfold strip, rstrip.
  apply Forall_rev, lstrip_Forall, Forall_rev, lstrip_Forall, Hs.
Qed.

End StringLemmas.

(** What [lstrip] removes is a prefix, what [rstrip] removes a suffix. *)
Lemma lstrip_suffix chars s : exists removed, s = removed ++ lstrip chars s.
Proof.
  induction s as [|c s [removed IH]]; simpl.
  - exists []. reflexivity.
  - destruct (chars c).
    + exists (c :: removed). simpl. f_equal. exact IH.
    + exists []. reflexivity.
Qed.

Lemma rstrip_prefix chars s : exists removed, s = rstrip chars s ++ removed.
Proof.
  unfold rstrip.
  destruct (lstrip_suffix chars (rev s)) as [removed H].
  exists (rev removed).
  rewrite <- rev_app_distr, <- H, rev_involutive. reflexivity.
Qed.

Lemma startswith_lstrip chars c s :
  chars c = true -> startswith c (lstrip chars s) = false.
Proof.
  intros Hc. induction s as [|x s IH]; simpl; [reflexivity|].
  destruct (chars x) eqn:Hx; [exact IH|]. simpl.
  destruct (N.eqb_spec x c); [congruence | reflexivity].
Qed.

Lemma startswith_of_prefix c s rest :
  startswith c (s ++ rest) = false -> startswith c s = false.
Proof. destruct s; simpl; auto. Qed.

Lemma startswith_firstn c n s :
  startswith c s = false -> startswith c (firstn n s) = false.
Proof. destruct n, s; simpl; auto. Qed.

Lemma startswith_strip chars c s :
  chars c = true -> startswith c (strip chars s) = false.
Proof.
  intros Hc. unfold strip.
  destruct (rstrip_prefix chars (lstrip chars s)) as [removed H].
  apply startswith_of_prefix with (rest := removed).
  rewrite <- H. apply startswith_lstrip, Hc.
Qed.

Lemma endswith_strip chars c s :
  chars c = true -> endswith c (strip chars s) = false.
Proof.
  intros Hc. unfold endswith, strip, rstrip.
  rewrite rev_involutive. apply startswith_lstrip, Hc.
Qed.

Lemma re_sub_class_length cls s :
  length (re_sub_class cls (lit "_") s) = length s.
Proof.
  unfold re_sub_class. induction s as [|c s IH]; simpl; [reflexivity|].
  destruct (cls c); simpl; rewrite IH; reflexivity.
Qed.

Lemma re_sub_run_length cls in_run s :
  length (re_sub_run cls (lit "_") in_run s) <= length s.
Proof.
  revert in_run. induction s as [|c s IH]; intros in_run; simpl; [lia|].
  destruct (cls c).
  - rewrite length_app. specialize (IH true). destruct in_run; simpl; lia.
  - simpl. specialize (IH false). lia.
Qed.

Lemma strip_length chars s : length (strip chars s) <= length s.
Proof.
  unfold strip.
  destruct (rstrip_prefix chars (lstrip chars s)) as [r1 H1].
  destruct (lstrip_suffix chars s) as [r2 H2].
  apply (f_equal (@length _)) in H1, H2. rewrite length_app in H1, H2. lia.
Qed.

(** A title of at most 200 characters is never cut. *)
Lemma stripped_name_length title :
  length (stripped_name title) <= length title.
Proof.
  unfold stripped_name, re_sub_class_plus.
  eapply Nat.le_trans; [apply strip_length|].
  eapply Nat.le_trans; [apply re_sub_run_length|].
  rewrite re_sub_class_length. lia.
Qed.

(** C4: the sanitized name holds none of the nine characters of the class
    of the first substitution and has at most 200 characters. *)
Theorem sanitize_filename_safe title :
  Forall (fun c => in_class unsafe_chars c = false) (sanitize_filename title)
  /\ length (sanitize_filename title) <= 200.
Proof.
  assert (Hsafe : Forall (fun c => in_class unsafe_chars c = false)
                    (stripped_name title)).
  { unfold stripped_name, re_sub_class_plus.
    apply strip_Forall, re_sub_run_Forall.
    - repeat constructor.
    - apply re_sub_class_Forall.
      + repeat constructor.
      + apply Forall_forall. auto. }
  unfold sanitize_filename.
  destruct (Nat.ltb_spec 200 (length (stripped_name title))) as [Hlong | Hshort].
  - split.
    + apply Forall_forall. intros c Hc.
      apply (proj1 (Forall_forall _ _) Hsafe).
      rewrite <- (firstn_skipn 200 (stripped_name title)).
      apply in_or_app. left. exact Hc.
    + rewrite length_firstn. lia.
  - split; [exact Hsafe | exact Hshort].
Qed.

(** C3 (as the spec states it) fails: a name of 201 characters whose 200th
    is an underscore is cut after the strip, and ends with that underscore. *)
Lemma sanitize_filename_trailing_underscore :
  endswith underscore
    (sanitize_filename (repeat 97%N 199 ++ lit "_b")) = true.
Proof. vm_compute. reflexivity. Qed.

(** C3 (as the code behaves): the sanitized name never starts with an
    underscore or a period, and it does not end with one when the name,
    once stripped, has at most 200 characters, so that it is not cut; a
    title of at most 200 characters gives such a name. *)
Theorem sanitize_filename_edges title :
  startswith underscore (sanitize_filename title) = false
  /\ startswith period (sanitize_filename title) = false
  /\ (length (stripped_name title) <= 200 ->
      endswith underscore (sanitize_filename title) = false
      /\ endswith period (sanitize_filename title) = false)
  /\ (length title <= 200 -> length (stripped_name title) <= 200).
Proof.
  assert (Hu : in_class (lit "._") underscore = true) by reflexivity.
  assert (Hp : in_class (lit "._") period = true) by reflexivity.
  assert (Hlen : length title <= 200 -> length (stripped_name title) <= 200).
  { intros Hle. pose proof (stripped_name_length title). lia. }
  unfold sanitize_filename.
  destruct (Nat.ltb_spec 200 (length (stripped_name title))) as [Hlong | Hshort].
  - repeat split; try exact Hlen.
    + apply startswith_firstn, startswith_strip, Hu.
    + apply startswith_firstn, startswith_strip, Hp.
    + lia.
    + lia.
  - repeat split; try exact Hlen.
    + apply startswith_strip, Hu.
    + apply startswith_strip, Hp.
    + apply endswith_strip, Hu.
    + apply endswith_strip, Hp.
Qed.

Lemma sanitize_filename_edges_witness :
  length (stripped_name (lit "_.My Page._")) <= 200
  /\ endswith underscore (sanitize_filename (lit "_.My Page._")) = false
  /\ endswith period (sanitize_filename (lit "_.My Page._")) = false.
Proof.
  assert (H : length (stripped_name (lit "_.My Page._")) <= 200).
  { vm_compute. lia. }
  split; [exact H|].
  exact (proj1 (proj2 (proj2 (sanitize_filename_edges (lit "_.My Page._")))) H).
Defined.

(** ** The content formatter *)

(** C8: when [page.text()] succeeds, [get_page_content] returns the
    document, which holds the title and the wikitext as they are, and the
    word [Unknown] when the page has no [touched] attribute. *)
Theorem get_page_content_verbatim (p : page) (body : str) (s : state) :
  text p = inr body ->
  exists content,
    get_page_content p s = (s, inr (Some content))
    /\ contains (name p) content
    /\ contains body content
    /\ (touched p = None -> contains (lit "Unknown") content).
Proof.
  intros Hfetch.
  exists (format_page (name p) body (touched p)).
  split; [|split; [|split]].
  - unfold get_page_content, try_except, bind, lift, ret.
    rewrite Hfetch. reflexivity.
  - exists (lit "# "). eexists. reflexivity.
  - exists (lit "# " ++ name p ++ newline ++ newline). eexists.
    unfold format_page. rewrite <- !app_assoc. reflexivity.
  - intros Habsent. rewrite Habsent.
    exists (lit "# " ++ name p ++ newline ++ newline ++ body ++ newline
            ++ newline ++ lit "---" ++ newline ++ lit "Source: MediaWiki"
            ++ newline ++ lit "Page: " ++ name p ++ newline
            ++ lit "Last Modified: ").
    exists newline.
    unfold format_page. rewrite <- !app_assoc. reflexivity.
Qed.

Lemma get_page_content_verbatim_witness :
  exists content,
    get_page_content (Page (lit "Main Page") (inr (lit "Welcome.")) None)
      initial = (initial, inr (Some content))
    /\ contains (lit "Main Page") content
    /\ contains (lit "Welcome.") content
    /\ contains (lit "Unknown") content.
Proof.
  destruct (get_page_content_verbatim
              (Page (lit "Main Page") (inr (lit "Welcome.")) None)
              (lit "Welcome.") initial eq_refl)
    as (content & Hrun & Htitle & Hbody & Hunknown).
  exists content. repeat split; auto.
Defined.

(** A failed fetch gives [None], after a warning. *)
Lemma get_page_content_failure (p : page) (e : exn) (s : state) :
  text p = inl e ->
  get_page_content p s =
    (State (exported_count s) (error_count s)
       (out s ++ [Print (MsgContentWarning (name p) e)]),
     inr None).
Proof.
  intros Hfetch. unfold get_page_content, try_except, bind, lift, ret.
  rewrite Hfetch. reflexivity.
Qed.

(** ** The export loop *)

Section ExportLoop.

Variable open_for_writing : str -> result unit.

Local Abbreviation page_events := (page_events open_for_writing).
Local Abbreviation page_exported := (page_exported open_for_writing).

(** The body never raises: it counts the page as exported or as an error. *)
Lemma export_page_run i p s :
  export_page open_for_writing i p s =
    (State (exported_count s + (if page_exported p then 1 else 0))
           (error_count s + (if page_exported p then 0 else 1))
           (out s ++ Print (MsgExporting (i + 1) (name p))
                  :: page_events p),
     inr tt).
Proof.
  unfold export_page, Scraper.page_events, Scraper.page_exported, try_except,
    bind, write_file,
    get_page_content, lift, ret, incr_error, incr_exported, emit, modify,
    filename_of.
  destruct s as [ex er log]. simpl.
  destruct (text p) as [e | body]; simpl.
  - rewrite <- app_assoc, !Nat.add_0_r. reflexivity.
  - destruct (open_for_writing _) as [e | []]; simpl;
      rewrite <- !app_assoc, !Nat.add_0_r; reflexivity.
Qed.

Lemma page_events_not_exporting p :
  filter is_exporting (page_events p) = [].
Proof.
  unfold Scraper.page_events.
  destruct (text p); [reflexivity|].
  destruct (open_for_writing _); reflexivity.
Qed.

Lemma page_events_writes p :
  length (filter is_write (page_events p)) = if page_exported p then 1 else 0.
Proof.
  unfold Scraper.page_events, Scraper.page_exported.
  destruct (text p); [reflexivity|].
  destruct (open_for_writing _); reflexivity.
Qed.

Lemma export_loop_processed limit pages : forall i s,
  let r := export_loop open_for_writing limit i pages s in
  snd r = inr tt
  /\ pages_processed (fst r)
     = pages_processed s + pages_to_process limit i (length pages).
Proof.
  induction pages as [|p rest IH]; intros i s; simpl.
  - split; [reflexivity|].
    unfold pages_to_process. destruct limit as [l|]; [|lia].
    destruct (l =? 0)%Z; simpl; lia.
  - destruct (limit_reached limit i) eqn:Hreached.
    + destruct limit as [l|]; [|discriminate]. simpl in Hreached.
      apply andb_true_iff in Hreached. destruct Hreached as [Hnz Hle].
      apply negb_true_iff in Hnz. apply Z.leb_le in Hle.
      split; [reflexivity|].
      unfold pages_to_process. rewrite Hnz.
      replace (Z.to_nat l - i) with 0 by lia.
      unfold pages_processed. simpl. rewrite filter_app. simpl.
      rewrite app_nil_r. lia.
    + rewrite (bind_ok _ _ _ _ _ (export_page_run i p s)).
      specialize (IH (i + 1)
        (State (exported_count s + (if page_exported p then 1 else 0))
               (error_count s + (if page_exported p then 0 else 1))
               (out s ++ Print (MsgExporting (i + 1) (name p))
                      :: page_events p))).
      simpl in IH. destruct IH as [IHr IHn].
      split; [exact IHr|].
      rewrite IHn. unfold pages_processed. simpl.
      rewrite filter_app. simpl. rewrite page_events_not_exporting.
      rewrite length_app. simpl.
      unfold pages_to_process. destruct limit as [l|]; [|lia].
      simpl in Hreached.
      destruct (Z.eqb_spec l 0) as [Hz|Hnz]; [lia|].
      simpl in Hreached. apply Z.leb_gt in Hreached. lia.
Qed.

(** With a positive limit below the number of pages, exactly that many
    pages are processed, and the loop ends without an exception. *)
Lemma export_loop_positive_limit (l : Z) (pages : list page) :
  (0 < l < Z.of_nat (length pages))%Z ->
  let r := scrape_pages open_for_writing (Some l) pages in
  snd r = inr tt /\ pages_processed (fst r) = Z.to_nat l.
Proof.
  intros Hl. destruct (export_loop_processed (Some l) pages 0 initial) as [Hr Hn].
  split; [exact Hr|].
  unfold scrape_pages. rewrite Hn. unfold pages_to_process.
  destruct (Z.eqb_spec l 0); [lia|]. unfold pages_processed. simpl. lia.
Qed.

(** C5, the case of the limit 0: [limit and i >= limit] is false for a
    limit of 0, the loop never breaks and every page is processed. *)
Theorem export_loop_limit_zero (pages : list page) :
  let r := scrape_pages open_for_writing (Some 0%Z) pages in
  snd r = inr tt /\ pages_processed (fst r) = length pages.
Proof.
  destruct (export_loop_processed (Some 0%Z) pages 0 initial) as [Hr Hn].
  split; [exact Hr|]. unfold scrape_pages. rewrite Hn. reflexivity.
Qed.

Lemma export_loop_counts_from limit pages : forall i s,
  (forall j, j < length pages -> limit_reached limit (i + j) = false) ->
  Forall (fun p => open_for_writing (filename_of p) = inr tt) pages ->
  let final := fst (export_loop open_for_writing limit i pages s) in
  let failed := length (filter fetch_fails pages) in
  files_written final + failed = files_written s + length pages
  /\ exported_count final + failed = exported_count s + length pages
  /\ error_count final = error_count s + failed.
Proof.
  induction pages as [|p rest IH]; intros i s Hlimit Hwrite; simpl.
  - lia.
  - assert (Hi : limit_reached limit i = false).
    { rewrite <- (Nat.add_0_r i). apply Hlimit. simpl. lia. }
    rewrite Hi, (bind_ok _ _ _ _ _ (export_page_run i p s)).
    inversion Hwrite as [|p' rest' Hp Hrest]; subst.
    match goal with |- context [export_loop _ _ _ _ ?s1] =>
      specialize (IH (i + 1) s1) end.
    simpl in IH. destruct IH as (IHw & IHx & IHe); [|exact Hrest|].
    { intros j Hj. replace (i + 1 + j) with (i + S j) by lia.
      apply Hlimit. simpl. lia. }
    assert (Hexp : page_exported p = negb (fetch_fails p)).
    { unfold Scraper.page_exported, fetch_fails. rewrite Hp.
      destruct (text p); reflexivity. }
    unfold files_written in *. simpl in *.
    rewrite filter_app, length_app in IHw. simpl in IHw.
    rewrite page_events_writes in IHw.
    revert IHw IHx IHe. rewrite Hexp.
    destruct (fetch_fails p); simpl; lia.
Qed.

(** C6: when the limit does not cut the run and every write succeeds, a run
    over [N] pages of which [M] fail the fetch of their content writes
    [N - M] files and ends with an error counter of [M]. *)
Theorem export_loop_counts (limit : option Z) (pages : list page) :
  (forall i, i < length pages -> limit_reached limit i = false) ->
  Forall (fun p => open_for_writing (filename_of p) = inr tt) pages ->
  let final := fst (scrape_pages open_for_writing limit pages) in
  let failed := length (filter fetch_fails pages) in
  files_written final = length pages - failed
  /\ error_count final = failed.
Proof.
  intros Hlimit Hwrite.
  destruct (export_loop_counts_from limit pages 0 initial Hlimit Hwrite)
    as (Hw & _ & He).
  unfold scrape_pages. simpl in *. split; [|exact He].
  unfold files_written in *. simpl in *. lia.
Qed.

End ExportLoop.

Lemma export_loop_counts_witness :
  let final := fst (scrape_pages (fun _ => inr tt) None example_pages) in
  (forall i, i < length example_pages -> limit_reached None i = false)
  /\ files_written final = 2
  /\ error_count final = 1.
Proof.
  assert (Hlimit : forall i,
            i < length example_pages -> limit_reached None i = false)
    by (intros i _; reflexivity).
  split; [exact Hlimit|].
  apply (export_loop_counts (fun _ => inr tt) None example_pages Hlimit).
  repeat constructor.
Defined.

(** ** The candidate files of the uploader *)

Import Uploader.

Lemma str_eqb_eq (a b : str) : str_eqb a b = true <-> a = b.
Proof.
  revert b. induction a as [|x a IH]; intros [|y b]; simpl;
    try (split; [discriminate | discriminate]); [tauto|].
  rewrite andb_true_iff, N.eqb_eq, IH.
  split; [intros [-> ->]; reflexivity | intros H; inversion H; auto].
Qed.

Lemma skipn_cons_nth {A} (l : list A) : forall i x rest,
  skipn i l = x :: rest -> nth_error l i = Some x /\ skipn (S i) l = rest.
Proof.
  induction l as [|y l IH]; intros [|i] x rest H; simpl in *;
    try discriminate.
  - inversion H. auto.
  - apply IH, H.
Qed.

Lemma allow_list_char_lowercase x :
  allow_list_char x = true -> (x < 128)%N /\ ascii_lower x = x.
Proof.
  unfold allow_list_char, extensions, in_class, ascii_lower. simpl.
  repeat match goal with
         | |- context [N.eqb x ?k] =>
             destruct (N.eqb_spec x k); [subst; split; reflexivity |]
         end.
  simpl. discriminate.
Qed.

Lemma extensions_allow_list ext :
  In ext extensions -> forallb allow_list_char ext = true.
Proof.
  unfold extensions. simpl.
  intros H. repeat destruct H as [<- | H]; try reflexivity. contradiction.
Qed.

Lemma map_ascii_lower_same s : same_up_to_case s (map ascii_lower s).
Proof.
  unfold same_up_to_case. induction s as [|c s IH]; simpl; constructor; auto.
  unfold ascii_lower.
  destruct (N.leb_spec 65 c), (N.leb_spec c 90); simpl; auto.
Qed.

Section EnumerationFacts.

Variable lower_nonascii : str -> nat -> str.
Variable listdir : path -> list str.
Variable is_file : path -> bool.

(** No code point outside ASCII has a lowercase made only of characters
    of the allow-list. *)
Hypothesis lower_nonascii_foreign : forall s i c,
  nth_error s i = Some c -> (128 <= c)%N ->
  forallb allow_list_char (lower_nonascii s i) = false.

Lemma lower_from_allow_list s : forall rest i,
  skipn i s = rest ->
  forallb allow_list_char (lower_from lower_nonascii s i rest) = true ->
  lower_from lower_nonascii s i rest = map ascii_lower rest.
Proof.
  induction rest as [|c rest IH]; intros i Hskip Hall; simpl in *.
  - reflexivity.
  - apply skipn_cons_nth in Hskip. destruct Hskip as [Hnth Hskip].
    rewrite forallb_app in Hall. apply andb_true_iff in Hall.
    destruct Hall as [Hc Hrest].
    rewrite (IH (S i) Hskip Hrest).
    unfold lower_at in *. destruct (N.ltb_spec c 128) as [Hlt | Hge].
    + reflexivity.
    + rewrite (lower_nonascii_foreign s i c Hnth Hge) in Hc. discriminate.
Qed.

Lemma lower_from_same s : forall rest ext i,
  same_up_to_case rest ext ->
  forallb allow_list_char ext = true ->
  lower_from lower_nonascii s i rest = ext.
Proof.
  unfold same_up_to_case.
  intros rest ext i Hsame. revert i.
  induction Hsame as [|c e rest ext Hce _ IH]; intros i Hall; simpl in *.
  - reflexivity.
  - apply andb_true_iff in Hall. destruct Hall as [He Hext].
    rewrite (IH (S i) Hext).
    apply allow_list_char_lowercase in He. destruct He as [Hlt Hlow].
    unfold lower_at. destruct Hce as [-> | [Hupper ->]].
    + apply N.ltb_lt in Hlt. rewrite Hlt, Hlow. reflexivity.
    + assert (Hc : (c <? 128)%N = true) by (apply N.ltb_lt; lia).
      rewrite Hc. unfold ascii_lower.
      destruct (N.leb_spec 65 c), (N.leb_spec c 90); simpl; try lia.
      reflexivity.
Qed.

(** Membership of the lowercased suffix in [extensions] is a comparison up
    to case with one of the seven extensions. *)
Lemma suffix_allowed_iff (suf : str) :
  existsb (str_eqb (lower lower_nonascii suf)) extensions = true
  <-> exists ext, In ext extensions /\ same_up_to_case suf ext.
Proof.
  rewrite existsb_exists. split; intros (ext & Hin & H); exists ext;
    (split; [exact Hin|]).
  - apply str_eqb_eq in H. unfold lower in H.
    rewrite <- H, lower_from_allow_list.
    + apply map_ascii_lower_same.
    + reflexivity.
    + rewrite H. apply extensions_allow_list, Hin.
  - apply str_eqb_eq. unfold lower.
    apply lower_from_same; [exact H | apply extensions_allow_list, Hin].
Qed.

(** C7: a path is a candidate exactly when it is an entry of the input
    directory itself, is a regular file, and has a suffix equal up to case
    to one of the seven extensions; in particular the parent of every
    candidate is the input directory, so no file of a subdirectory is
    one. *)
Theorem candidate_files_exact (docs_path f : path) :
  (In f (candidate_files lower_nonascii listdir is_file docs_path)
   <-> (exists child, In child (listdir docs_path)
                      /\ f = joinpath docs_path child)
       /\ is_file f = true
       /\ exists ext, In ext extensions /\ same_up_to_case (suffix f) ext)
  /\ (In f (candidate_files lower_nonascii listdir is_file docs_path) ->
      parent f = docs_path).
Proof.
  assert (Hiter : In f (iterdir listdir docs_path)
                  <-> exists child, In child (listdir docs_path)
                                    /\ f = joinpath docs_path child).
  { unfold iterdir. rewrite in_map_iff.
    split; intros (child & H1 & H2); exists child; auto. }
  unfold candidate_files. rewrite filter_In, andb_true_iff, suffix_allowed_iff.
  split.
  - rewrite Hiter. tauto.
  - intros [Hin _]. apply Hiter in Hin. destruct Hin as (child & _ & ->).
    unfold parent, joinpath. apply removelast_last.
Qed.

End EnumerationFacts.

Lemma identity_lower_foreign s i c :
  nth_error s i = Some c -> (128 <= c)%N ->
  forallb allow_list_char (identity_lower s i) = false.
Proof.
  intros Hnth Hc. unfold identity_lower, str, char in *. rewrite Hnth. simpl.
  destruct (allow_list_char c) eqn:E; [|reflexivity].
  apply allow_list_char_lowercase in E. lia.
Qed.

Example candidate_files_example :
  candidate_files identity_lower example_listdir example_is_file docs
  = [joinpath docs (lit "a.txt"); joinpath docs (lit "b.md");
     joinpath docs (lit "NOTES.TXT")].
Proof. vm_compute. reflexivity. Qed.

(** A file whose name is only [.txt] has no suffix for pathlib. *)
Example suffix_of_dot_txt : suffix (joinpath docs (lit ".txt")) = [].
Proof. vm_compute. reflexivity. Qed.

Lemma candidate_files_exact_witness :
  In (joinpath docs (lit "NOTES.TXT"))
     (candidate_files identity_lower example_listdir example_is_file docs)
  /\ parent (joinpath docs (lit "NOTES.TXT")) = docs.
Proof.
  destruct (candidate_files_exact identity_lower example_listdir
              example_is_file identity_lower_foreign docs
              (joinpath docs (lit "NOTES.TXT"))) as [Hiff Hparent].
  assert (Hin : In (joinpath docs (lit "NOTES.TXT"))
                   (candidate_files identity_lower example_listdir
                      example_is_file docs)).
  { apply Hiff. split; [|split].
    - exists (lit "NOTES.TXT"). split; [|reflexivity].
      vm_compute. auto 6.
    - reflexivity.
    - exists (lit ".txt"). split; [vm_compute; auto|].
      unfold same_up_to_case.
      replace (suffix (joinpath docs (lit "NOTES.TXT")))
        with [46; 84; 88; 84]%N by (vm_compute; reflexivity).
      replace (lit ".txt") with [46; 116; 120; 116]%N
        by (vm_compute; reflexivity).
      repeat (constructor;
              [first [left; reflexivity | right; split; [lia | reflexivity]]|]).
      constructor. }
  split; [exact Hin | exact (Hparent Hin)].
Defined.

(** ** The upload loop *)

Lemma bind_assoc {St A B C} (m : M St A) (k : A -> M St B) (h : B -> M St C) s :
  bind (bind m k) h s = bind m (fun a => bind (k a) h) s.
Proof. unfold bind. destruct (m s) as [s' [e | a]]; reflexivity. Qed.

Lemma bind_ext {St A B} (m : M St A) (k k' : A -> M St B) s :
  (forall a s', k a s' = k' a s') -> bind m k s = bind m k' s.
Proof.
  intros H. unfold bind. destruct (m s) as [s' [e | a]]; [reflexivity | apply H].
Qed.

Lemma bind_ret_tt {St} (m : M St unit) s : bind m (fun _ => ret tt) s = m s.
Proof. unfold bind, ret. destruct (m s) as [s' [e | []]]; reflexivity. Qed.

Lemma for_enumerate_snoc {St A} (body : nat -> A -> M St unit) xs x :
  forall start s,
    for_enumerate body start (xs ++ [x]) s
    = bind (for_enumerate body start xs)
        (fun _ => body (start + length xs) x) s.
Proof.
  induction xs as [|y xs IH]; intros start s; simpl.
  - rewrite bind_ret_tt, Nat.add_0_r. reflexivity.
  - rewrite bind_assoc. apply bind_ext. intros _ s'.
    rewrite IH. replace (S start + length xs) with (start + S (length xs))
      by lia. reflexivity.
Qed.

Lemma firstn_succ_snoc {A} (d : A) (l : list A) : forall k,
  k < length l -> firstn (S k) l = firstn k l ++ [nth k l d].
Proof.
  induction l as [|x l IH]; intros [|k] Hk; simpl in *; try lia.
  - reflexivity.
  - f_equal. apply IH. lia.
Qed.

Section UploadLoop.

Context {service : Type}.
Variable post_upload : service -> path -> service * result json.
Variable post_update_embeddings :
  service -> json -> json -> service * result unit.

Local Abbreviation upload_file :=
  (upload_file post_upload post_update_embeddings).
Local Abbreviation state_after :=
  (state_after post_upload post_update_embeddings).

(** One run of the body, whether it ends normally or with an exception:
    each counter grows by at most one, and [embedded] only with
    [uploaded]. *)
Lemma upload_file_counters slug total i f (s : state) :
  let s' := fst (upload_file slug total i f s) in
  uploaded s <= uploaded s' <= uploaded s + 1
  /\ embedded s <= embedded s' <= embedded s + 1
  /\ embedded s' + uploaded s <= embedded s + uploaded s'.
Proof.
  unfold Uploader.upload_file, upload_document, add_document_to_workspace,
    try_except, bind, call, lift, ret, incr_uploaded, incr_embedded,
    Uploader.emit, modify.
  destruct s as [up em sv log]. simpl.
  destruct (post_upload sv f) as [sv1 [e | result]]; simpl; [lia|].
  destruct (truthy result); simpl; [|lia].
  destruct (document_location result) as [e | loc]; simpl; [lia|].
  destruct (truthy loc); simpl; [|lia].
  destruct (post_update_embeddings sv1 slug loc) as [sv2 [e | u]]; simpl; lia.
Qed.

Lemma upload_loop_counters slug total files : forall start (s : state),
  let s' := fst (for_enumerate (upload_file slug total) start files s) in
  uploaded s <= uploaded s' <= uploaded s + length files
  /\ embedded s <= embedded s'
  /\ embedded s' + uploaded s <= embedded s + uploaded s'.
Proof.
  induction files as [|f files IH]; intros start s; simpl.
  - lia.
  - pose proof (upload_file_counters slug total start f s) as Hstep.
    unfold bind. simpl in Hstep.
    destruct (upload_file slug total start f s) as [s1 [e | u]]; simpl in *.
    + lia.
    + specialize (IH (S start) s1). simpl in IH. lia.
Qed.

(** C10: in the state reached after any number of iterations (or left by an
    exception), [0 <= embedded <= uploaded <= len(files)], and from one
    iteration to the next each counter stays or grows by one. *)
Theorem upload_counters_invariant slug (files : list path) (sv : service) k :
  let before := state_after slug files sv k in
  let after := state_after slug files sv (S k) in
  (0 <= embedded before
   /\ embedded before <= uploaded before
   /\ uploaded before <= length files)
  /\ uploaded before <= uploaded after <= uploaded before + 1
  /\ embedded before <= embedded after <= embedded before + 1.
Proof.
  unfold Uploader.state_after. cbv zeta. split.
  - pose proof (upload_loop_counters slug (length files) (firstn k files) 1
                  (initial sv)) as H.
    simpl in H. rewrite length_firstn in H. lia.
  - destruct (Nat.lt_ge_cases k (length files)) as [Hk | Hk].
    + rewrite (firstn_succ_snoc (A := path) [] files k Hk), for_enumerate_snoc.
      unfold bind.
      destruct (for_enumerate _ 1 (firstn k files) (initial sv))
        as [s [e | u]]; simpl; [lia|].
      pose proof (upload_file_counters slug (length files)
                    (1 + length (firstn k files)) (nth k files []) s) as H.
      simpl in H. lia.
    + rewrite !firstn_all2 by lia. lia.
Qed.

(** The pause of line 195 is reached once for each file counted as
    uploaded, when the body ends without an exception. *)
Lemma upload_file_pauses slug total i f (s s' : state) :
  upload_file slug total i f s = (s', inr tt) ->
  pauses s' + uploaded s = pauses s + uploaded s'.
Proof.
  unfold Uploader.upload_file, upload_document, add_document_to_workspace,
    try_except, bind, call, lift, ret, incr_uploaded, incr_embedded,
    Uploader.emit, modify, pauses.
  destruct s as [up em sv log]. simpl.
  destruct (post_upload sv f) as [sv1 [e | result]]; simpl.
  - intros H. inversion H. simpl. rewrite !filter_app, !length_app. simpl. lia.
  - destruct (truthy result); simpl.
    + destruct (document_location result) as [e | loc]; simpl; [discriminate|].
      destruct (truthy loc); simpl.
      * destruct (post_update_embeddings sv1 slug loc) as [sv2 [e | u]]; simpl;
          intros H; inversion H; simpl;
          rewrite !filter_app, !length_app; simpl; lia.
      * intros H; inversion H; simpl.
        rewrite !filter_app, !length_app; simpl; lia.
    + intros H; inversion H; simpl.
      rewrite !filter_app, !length_app; simpl; lia.
Qed.

(** Line 185 raises nothing on a well-formed response. *)
Lemma document_location_well_formed result :
  well_formed_response result = true ->
  exists loc, document_location result = inr loc.
Proof.
  unfold well_formed_response, document_location, py_get.
  destruct result as [| | | | |items|members]; try discriminate.
  destruct (dict_lookup (lit "documents") members) as [v|]; simpl.
  - destruct v as [| | | | |[|[| | | | | |first] rest]|]; try discriminate.
    simpl. eauto.
  - eauto.
Qed.

Lemma upload_file_no_exception slug total i f (s : state) :
  (forall result, snd (post_upload (server s) f) = inr result ->
                  well_formed_response result = true) ->
  snd (upload_file slug total i f s) = inr tt.
Proof.
  unfold Uploader.upload_file, upload_document, add_document_to_workspace,
    try_except, bind, call, lift, ret, incr_uploaded, incr_embedded,
    Uploader.emit, modify.
  destruct s as [up em sv log]. simpl.
  destruct (post_upload sv f) as [sv1 [e | result]]; simpl; intros Hwf.
  - reflexivity.
  - destruct (truthy result); simpl; [|reflexivity].
    destruct (document_location_well_formed result (Hwf result eq_refl))
      as [loc ->]. simpl.
    destruct (truthy loc); simpl; [|reflexivity].
    destruct (post_update_embeddings sv1 slug loc) as [sv2 [e | u]];
      reflexivity.
Qed.

End UploadLoop.

(** When the loop ends without an exception, it has paused once for each
    file counted as uploaded, and for no other. *)
Lemma upload_loop_pauses {service : Type}
      (post_upload : service -> path -> service * result json)
      (post_update_embeddings : service -> json -> json -> service * result unit)
      slug (files : list path) (sv : service) (final : state) :
  upload_loop post_upload post_update_embeddings slug files (initial sv)
  = (final, inr tt) ->
  pauses final = uploaded final.
Proof.
  unfold upload_loop. generalize (length files) at 1. intros total.
  assert (H : forall start (s s' : @state service),
             for_enumerate
               (upload_file post_upload post_update_embeddings slug total)
               start files s = (s', inr tt) ->
             pauses s' + uploaded s = pauses s + uploaded s').
  { induction files as [|f files IH]; intros start s s' Hrun; simpl in Hrun.
    - inversion Hrun. lia.
    - unfold bind in Hrun.
      destruct (upload_file _ _ slug total start f s) as [s1 [e | []]] eqn:Hf;
        [discriminate|].
      apply upload_file_pauses in Hf. apply IH in Hrun. lia. }
  intros Hrun. apply H in Hrun. unfold pauses in *. simpl in Hrun. lia.
Qed.

(** An embedding that fails costs nothing but its count: both files are
    uploaded, and the loop pauses after each. *)
Example upload_loop_embedding_failure :
  let run :=
    upload_loop scripted_upload scripted_update_embeddings example_slug
      example_files (initial second_embedding_fails_service) in
  snd run = inr tt
  /\ uploaded (fst run) = 2
  /\ embedded (fst run) = 1
  /\ pauses (fst run) = 2
  /\ paused_between_uploads false (out (fst run)) = true.
Proof. vm_compute. repeat split. Qed.

(** Whatever the service, a response that is a dict with an empty
    [documents] list makes the body raise [IndexError], after the file was
    counted as uploaded. *)
Lemma upload_file_empty_documents {service : Type}
      (post_upload : service -> path -> service * result json)
      (post_update_embeddings : service -> json -> json -> service * result unit)
      slug total i f (s : state) sv' members :
  post_upload (server s) f = (sv', inr (JObj members)) ->
  dict_lookup (lit "documents") members = Some (JArr []) ->
  let run := upload_file post_upload post_update_embeddings slug total i f s in
  snd run = inl IndexError /\ uploaded (fst run) = uploaded s + 1.
Proof.
  intros Hanswer Hdocs.
  unfold upload_file, upload_document, try_except, bind, call, lift, ret,
    incr_uploaded, emit, modify.
  destruct s as [up em sv log]. simpl in *. rewrite Hanswer. simpl.
  destruct members as [|member members]; [discriminate|]. simpl.
  unfold document_location, py_get. rewrite Hdocs. simpl. auto.
Qed.

(** C1, on a response with an empty [documents] list: line 185 raises
    [IndexError] outside any [try], the exception leaves the loop and the
    second file is never uploaded. *)
Theorem upload_loop_empty_documents_raises :
  let run :=
    upload_loop scripted_upload scripted_update_embeddings example_slug
      example_files (initial empty_documents_service) in
  snd run = inl IndexError
  /\ uploaded (fst run) = 1
  /\ out (fst run)
     = [Print (MsgUploading 1 2 (lit "a.txt"));
        PostUpload (joinpath docs (lit "a.txt"))].
Proof. vm_compute. repeat split. Qed.

(** C9, when the upload of the first file fails: [continue] skips the
    pause of line 195, and the request for the second file follows that for
    the first with no [Sleep] between them. *)
Theorem upload_loop_no_pause_after_failure :
  let run :=
    upload_loop scripted_upload scripted_update_embeddings example_slug
      example_files (initial first_upload_fails_service) in
  snd run = inr tt
  /\ out (fst run)
     = [Print (MsgUploading 1 2 (lit "a.txt"));
        PostUpload (joinpath docs (lit "a.txt"));
        Print (MsgUploadError (lit "a.txt")
                 (OtherException (lit "HTTPError: 500 Server Error")));
        Print (MsgUploading 2 2 (lit "b.md"));
        PostUpload (joinpath docs (lit "b.md"));
        Print MsgEmbedding;
        PostUpdateEmbeddings example_slug
          (JStr (lit "custom-documents/b.md.json"));
        Print MsgEmbedded;
        Sleep 500]
  /\ paused_between_uploads false (out (fst run)) = false.
Proof. vm_compute. repeat split. Qed.

(** * Further properties of the exporter *)

Import Scraper.

(** ** More on the filename sanitizer *)

Lemma re_sub_run_no_class cls in_run s :
  Forall (fun c => cls c = false) (lit "_") ->
  Forall (fun c => cls c = false) (re_sub_run cls (lit "_") in_run s).
Proof.
  intros Hrepl. revert in_run.
  induction s as [|c s IH]; intros in_run; simpl; [constructor|].
  destruct (cls c) eqn:Hc.
  - apply Forall_app. split; [|apply IH].
    destruct in_run; [constructor | exact Hrepl].
  - constructor; [exact Hc | apply IH].
Qed.

Lemma firstn_Forall {A} (P : A -> Prop) n (l : list A) :
  Forall P l -> Forall P (firstn n l).
Proof.
  intros H. revert n. induction H as [|x l Hx _ IH]; intros [|n]; simpl;
    constructor; auto.
Qed.

Lemma stripped_name_unsafe_free title :
  Forall (fun c => in_class unsafe_chars c = false) (stripped_name title).
Proof.
  unfold stripped_name, re_sub_class_plus.
  apply strip_Forall, re_sub_run_Forall.
  - repeat constructor.
  - apply re_sub_class_Forall.
    + repeat constructor.
    + apply Forall_forall. auto.
Qed.

Lemma stripped_name_space_free title :
  Forall (fun c => isspace c = false) (stripped_name title).
Proof.
  unfold stripped_name, re_sub_class_plus.
  apply strip_Forall, re_sub_run_no_class. repeat constructor.
Qed.

(** X1: the sanitized name holds no whitespace character, whatever the
    title. *)
Theorem sanitize_filename_no_whitespace title :
  Forall (fun c => isspace c = false) (sanitize_filename title).
Proof.
  unfold sanitize_filename.
  destruct (200 <? length (stripped_name title)).
  - apply firstn_Forall, stripped_name_space_free.
  - apply stripped_name_space_free.
Qed.

(** X2: the sanitized name is never longer than the title. *)
Theorem sanitize_filename_not_longer title :
  length (sanitize_filename title) <= length title.
Proof.
  unfold sanitize_filename. pose proof (stripped_name_length title) as H.
  destruct (200 <? length (stripped_name title)).
  - rewrite length_firstn. lia.
  - exact H.
Qed.

Lemma re_sub_class_plain cls repl s :
  Forall (fun c => cls c = false) s -> re_sub_class cls repl s = s.
Proof.
  unfold re_sub_class. induction 1 as [|c s Hc _ IH]; simpl; [reflexivity|].
  rewrite Hc, IH. reflexivity.
Qed.

Lemma re_sub_run_plain cls repl s :
  Forall (fun c => cls c = false) s -> re_sub_run cls repl false s = s.
Proof.
  induction 1 as [|c s Hc _ IH]; simpl; [reflexivity|].
  rewrite Hc, IH. reflexivity.
Qed.

Lemma lstrip_unchanged chars s :
  match s with [] => True | c :: _ => chars c = false end ->
  lstrip chars s = s.
Proof. destruct s as [|c s]; simpl; [reflexivity|]. intros ->. reflexivity. Qed.

Lemma strip_unchanged chars s :
  match s with [] => True | c :: _ => chars c = false end ->
  match rev s with [] => True | c :: _ => chars c = false end ->
  strip chars s = s.
Proof.
  intros Hfirst Hlast. unfold strip, rstrip.
  rewrite (lstrip_unchanged chars s Hfirst),
    (lstrip_unchanged chars (rev s) Hlast).
  apply rev_involutive.
Qed.

Lemma edge_of_startswith s :
  startswith underscore s = false -> startswith period s = false ->
  match s with [] => True | c :: _ => in_class (lit "._") c = false end.
Proof.
  destruct s as [|c s]; simpl; [auto|]. unfold underscore, period.
  intros H1 H2. change (lit "._") with [46; 95]%N. simpl.
  rewrite H1, H2. reflexivity.
Qed.

Lemma startswith_of_edge c s :
  in_class (lit "._") c = true ->
  match s with [] => True | x :: _ => in_class (lit "._") x = false end ->
  startswith c s = false.
Proof.
  destruct s as [|x s]; simpl; [reflexivity|]. intros Hc Hx.
  destruct (N.eqb_spec x c); [subst; congruence | reflexivity].
Qed.

Lemma sanitize_filename_unchanged_aux title :
  Forall (fun c => in_class unsafe_chars c = false) title ->
  Forall (fun c => isspace c = false) title ->
  match title with [] => True | c :: _ => in_class (lit "._") c = false end ->
  match rev title with [] => True | c :: _ => in_class (lit "._") c = false end ->
  length title <= 200 ->
  sanitize_filename title = title.
Proof.
  intros Hsafe Hspace Hfirst Hlast Hlen.
  assert (Hs : stripped_name title = title).
  { unfold stripped_name, re_sub_class_plus.
    rewrite (re_sub_class_plain _ _ title Hsafe),
      (re_sub_run_plain _ _ title Hspace).
    apply strip_unchanged; assumption. }
  unfold sanitize_filename. rewrite Hs.
  destruct (Nat.ltb_spec 200 (length title)); [lia | reflexivity].
Qed.

(** X3: a title of at most 200 characters with no character of the unsafe
    class, no whitespace, and no underscore or period at either end, is its
    own file name. *)
Theorem sanitize_filename_unchanged title :
  forallb plain title = true ->
  startswith underscore title = false ->
  startswith period title = false ->
  endswith underscore title = false ->
  endswith period title = false ->
  length title <= 200 ->
  sanitize_filename title = title.
Proof.
  intros Hplain Hsu Hsp Heu Hep Hlen.
  rewrite forallb_forall in Hplain.
  apply sanitize_filename_unchanged_aux;
    try (apply Forall_forall; intros c Hc; specialize (Hplain c Hc);
         unfold plain in Hplain; apply andb_true_iff in Hplain;
         destruct Hplain as [H1 H2]; apply negb_true_iff in H1, H2;
         assumption).
  - apply edge_of_startswith; assumption.
  - apply edge_of_startswith; assumption.
  - exact Hlen.
Qed.

Lemma sanitize_filename_unchanged_witness :
  sanitize_filename (lit "Release_Notes.2024") = lit "Release_Notes.2024".
Proof.
  apply sanitize_filename_unchanged; try reflexivity.
  vm_compute. lia.
Defined.

Lemma lstrip_head chars s :
  match lstrip chars s with [] => True | c :: _ => chars c = false end.
Proof.
  induction s as [|c s IH]; simpl; [exact I|].
  destruct (chars c) eqn:Hc; [exact IH | exact Hc].
Qed.

Lemma strip_head chars s :
  match strip chars s with [] => True | c :: _ => chars c = false end.
Proof.
  unfold strip.
  destruct (rstrip_prefix chars (lstrip chars s)) as [removed H].
  pose proof (lstrip_head chars s) as Hhead. rewrite H in Hhead.
  destruct (rstrip chars (lstrip chars s)); [exact I | exact Hhead].
Qed.

Lemma strip_last chars s :
  match rev (strip chars s) with [] => True | c :: _ => chars c = false end.
Proof.
  unfold strip, rstrip. rewrite rev_involutive. apply lstrip_head.
Qed.

(** X4: sanitizing twice gives what sanitizing once gives, when the name is
    not cut at 200 characters the first time. *)
Theorem sanitize_filename_idempotent title :
  length (stripped_name title) <= 200 ->
  sanitize_filename (sanitize_filename title) = sanitize_filename title.
Proof.
  intros Hlen.
  assert (Hs : sanitize_filename title = stripped_name title).
  { unfold sanitize_filename.
    destruct (Nat.ltb_spec 200 (length (stripped_name title)));
      [lia | reflexivity]. }
  rewrite Hs. apply sanitize_filename_unchanged_aux.
  - apply stripped_name_unsafe_free.
  - apply stripped_name_space_free.
  - apply strip_head.
  - apply strip_last.
  - exact Hlen.
Qed.

Lemma sanitize_filename_idempotent_witness :
  sanitize_filename (sanitize_filename (lit "Talk: A/B  (draft)."))
  = sanitize_filename (lit "Talk: A/B  (draft).").
Proof.
  apply sanitize_filename_idempotent. vm_compute. lia.
Defined.

(** The cut can uncover an underscore that a second pass strips. *)
Example sanitize_filename_not_idempotent_when_cut :
  sanitize_filename (sanitize_filename (repeat 97%N 199 ++ lit "_b"))
  <> sanitize_filename (repeat 97%N 199 ++ lit "_b").
Proof. vm_compute. discriminate. Qed.

Lemma re_sub_run_Forall_kept (P : char -> Prop) cls repl in_run s :
  Forall P repl ->
  Forall (fun c => cls c = false -> P c) s ->
  Forall P (re_sub_run cls repl in_run s).
Proof.
  intros Hrepl Hs. revert in_run.
  induction Hs as [|c s Hc _ IH]; intros in_run; simpl; [constructor|].
  destruct (cls c) eqn:E.
  - apply Forall_app. split; [|apply IH].
    destruct in_run; [constructor | exact Hrepl].
  - constructor; [apply Hc; reflexivity | apply IH].
Qed.

Lemma re_sub_run_Forall_inv (P : char -> Prop) cls repl in_run s :
  Forall P (re_sub_run cls repl in_run s) ->
  Forall (fun c => cls c = false -> P c) s.
Proof.
  revert in_run. induction s as [|c s IH]; intros in_run H; simpl in *;
    [constructor|].
  destruct (cls c) eqn:E.
  - apply Forall_app in H. destruct H as [_ H].
    constructor; [intros Hf; congruence | exact (IH _ H)].
  - inversion H; subst. constructor; [auto | eapply IH; eassumption].
Qed.

Lemma re_sub_class_Forall_inv (P : char -> Prop) cls repl s :
  Forall P (re_sub_class cls repl s) ->
  Forall (fun c => cls c = false -> P c) s.
Proof.
  unfold re_sub_class. induction s as [|c s IH]; simpl; intros H;
    [constructor|].
  apply Forall_app in H. destruct H as [Hc Hs].
  constructor; [|exact (IH Hs)].
  intros E. rewrite E in Hc. inversion Hc; assumption.
Qed.

Lemma lstrip_nil_iff chars s :
  lstrip chars s = [] <-> Forall (fun c => chars c = true) s.
Proof.
  induction s as [|c s IH]; simpl.
  - split; [constructor | reflexivity].
  - destruct (chars c) eqn:E.
    + rewrite IH. split; [constructor; assumption | inversion 1; assumption].
    + split; [discriminate | inversion 1; congruence].
Qed.

Lemma strip_nil_iff chars s :
  strip chars s = [] <-> Forall (fun c => chars c = true) s.
Proof.
  unfold strip, rstrip. split.
  - intros H. apply (f_equal (@rev _)) in H. rewrite rev_involutive in H.
    simpl in H. apply lstrip_nil_iff in H. apply Forall_rev in H.
    rewrite rev_involutive in H.
    pose proof (lstrip_head chars s) as Hhead.
    destruct (lstrip chars s) as [|c rest] eqn:E.
    + apply lstrip_nil_iff, E.
    + inversion H; congruence.
  - intros H. apply lstrip_nil_iff in H. rewrite H. reflexivity.
Qed.

Lemma stripped_name_nil_iff title :
  stripped_name title = [] <-> forallb strippable title = true.
Proof.
  unfold stripped_name, re_sub_class_plus. rewrite strip_nil_iff.
  rewrite forallb_forall, <- Forall_forall. split.
  - intros H. apply re_sub_run_Forall_inv, re_sub_class_Forall_inv in H.
    eapply Forall_impl; [|exact H]. cbv beta. intros c Hc.
    unfold strippable.
    destruct (in_class unsafe_chars c) eqn:Hunsafe; [reflexivity|].
    destruct (isspace c) eqn:Hspace; [reflexivity|].
    apply Hc; reflexivity.
  - intros H. apply re_sub_run_Forall_kept; [repeat constructor|].
    apply re_sub_class_Forall; [repeat constructor|].
    eapply Forall_impl; [|exact H]. cbv beta. intros c Hc Hunsafe Hspace.
    unfold strippable in Hc. rewrite Hunsafe, Hspace in Hc. exact Hc.
Qed.

Lemma sanitize_filename_nil_iff_stripped title :
  sanitize_filename title = [] <-> stripped_name title = [].
Proof.
  unfold sanitize_filename.
  destruct (Nat.ltb_spec 200 (length (stripped_name title))) as [Hlong|];
    [|reflexivity].
  split; intros H.
  - destruct (stripped_name title); simpl in *; [lia | discriminate].
  - rewrite H in Hlong. simpl in Hlong. lia.
Qed.

(** X5: the sanitized name is empty exactly when every character of the
    title is of the unsafe class, a whitespace, an underscore or a period;
    the page is then written to a file named [.txt]. *)
Theorem sanitize_filename_empty_iff title :
  sanitize_filename title = [] <-> forallb strippable title = true.
Proof.
  rewrite sanitize_filename_nil_iff_stripped. apply stripped_name_nil_iff.
Qed.

(** X6: two titles that differ by one character, of the unsafe class in
    both, get the same file name. *)
Theorem sanitize_filename_collision before after c1 c2 :
  in_class unsafe_chars c1 = true ->
  in_class unsafe_chars c2 = true ->
  sanitize_filename (before ++ c1 :: after)
  = sanitize_filename (before ++ c2 :: after).
Proof.
  intros H1 H2.
  assert (H : stripped_name (before ++ c1 :: after)
              = stripped_name (before ++ c2 :: after)).
  { unfold stripped_name, re_sub_class. rewrite !flat_map_app.
    cbn [flat_map]. rewrite H1, H2. reflexivity. }
  unfold sanitize_filename. rewrite H. reflexivity.
Qed.

Lemma sanitize_filename_collision_witness :
  sanitize_filename (lit "TCP" ++ 47%N :: lit "IP")
  = sanitize_filename (lit "TCP" ++ 58%N :: lit "IP").
Proof.
  apply sanitize_filename_collision; reflexivity.
Defined.

(** ** More on [get_page_content] and the export loop *)

(** X7: [get_page_content] never raises; it returns [None] exactly when
    [page.text()] raised, and it leaves the two counters as they were. *)
Theorem get_page_content_never_raises (p : page) (s : state) :
  exists r,
    snd (get_page_content p s) = inr r
    /\ (r = None <-> fetch_fails p = true)
    /\ exported_count (fst (get_page_content p s)) = exported_count s
    /\ error_count (fst (get_page_content p s)) = error_count s.
Proof.
  unfold get_page_content, try_except, bind, lift, ret, emit, modify,
    fetch_fails.
  destruct (text p) as [e | body]; simpl.
  - exists None. repeat split; reflexivity.
  - eexists. repeat split; try reflexivity; discriminate.
Qed.

Section ExportLoopSummary.

Variable open_for_writing : str -> result unit.

Local Abbreviation page_events := (page_events open_for_writing).
Local Abbreviation page_exported := (page_exported open_for_writing).










(** X11: with a positive limit, the loop processes that many pages, or all
    of them when there are fewer. *)
Theorem export_loop_positive_limit_min (l : Z) (pages : list page) :
  (0 < l)%Z ->
  pages_processed (fst (scrape_pages open_for_writing (Some l) pages))
  = Nat.min (length pages) (Z.to_nat l).
Proof.
  intros Hl. unfold scrape_pages.
  destruct (export_loop_processed open_for_writing (Some l) pages 0 initial)
    as [_ Hn].
  cbv zeta in Hn. rewrite Hn. unfold pages_to_process, pages_processed. simpl.
  destruct (Z.eqb_spec l 0); lia.
Qed.

(** X12: with a negative limit the loop breaks before the first page:
    nothing is processed or written and both counters stay at 0. *)
Theorem export_loop_negative_limit (l : Z) (pages : list page) :
  (l < 0)%Z ->
  let final := fst (scrape_pages open_for_writing (Some l) pages) in
  pages_processed final = 0
  /\ files_written final = 0
  /\ exported_count final = 0
  /\ error_count final = 0.
Proof.
  intros Hl. cbv zeta. unfold scrape_pages.
  destruct pages as [|p rest]; [repeat split|].
  assert (H : limit_reached (Some l) 0 = true).
  { unfold limit_reached. apply andb_true_iff.
    split; [apply negb_true_iff, Z.eqb_neq | apply Z.leb_le]; simpl; lia. }
  cbn [export_loop]. rewrite H. repeat split.
Qed.

End ExportLoopSummary.

Lemma export_loop_positive_limit_min_witness :
  pages_processed (fst (scrape_pages (fun _ => inr tt) (Some 2%Z) example_pages))
  = 2.
Proof.
  apply (export_loop_positive_limit_min (fun _ => inr tt) 2 example_pages).
  lia.
Defined.

Lemma export_loop_negative_limit_witness :
  let final :=
    fst (scrape_pages (fun _ => inr tt) (Some (-1)%Z) example_pages) in
  pages_processed final = 0
  /\ files_written final = 0
  /\ exported_count final = 0
  /\ error_count final = 0.
Proof.
  apply (export_loop_negative_limit (fun _ => inr tt) (-1) example_pages).
  lia.
Defined.

(** ** From the exporter to the uploader *)

Import Uploader.

Lemma rfind_app c a b :
  (0 <= rfind c b)%Z ->
  rfind c (a ++ b) = (Z.of_nat (length a) + rfind c b)%Z.
Proof.
  intros Hb. induction a as [|x a IH]; [reflexivity|].
  cbn [app rfind length]. rewrite IH.
  destruct (Z.leb_spec 0 (Z.of_nat (length a) + rfind c b)); lia.
Qed.

Lemma path_name_joinpath d child : path_name (joinpath d child) = child.
Proof. unfold path_name, joinpath. apply last_last. Qed.

Lemma suffix_of_exported d stem :
  stem <> [] -> suffix (joinpath d (stem ++ lit ".txt")) = lit ".txt".
Proof.
  intros Hstem. unfold suffix. rewrite path_name_joinpath.
  rewrite rfind_app by (vm_compute; discriminate).
  change (rfind 46%N (lit ".txt")) with 0%Z. rewrite Z.add_0_r, length_app.
  change (length (lit ".txt")) with 4.
  assert (Hlen : 0 < length stem) by (destruct stem; simpl; [congruence | lia]).
  destruct (Z.ltb_spec 0 (Z.of_nat (length stem))); [|lia].
  destruct (Z.ltb_spec (Z.of_nat (length stem))
              (Z.of_nat (length stem + 4) - 1)); [|lia].
  simpl. rewrite Nat2Z.id, skipn_app, skipn_all, Nat.sub_diag. reflexivity.
Qed.

Section ExporterToUploader.

Variable lower_nonascii : str -> nat -> str.
Variable listdir : path -> list str.
Variable is_file : path -> bool.

(** X13: the file the exporter writes for a page whose sanitized title is
    not empty is a candidate of the uploader, once it is listed in the
    input directory as a regular file: its suffix is [.txt]. *)
Theorem exported_file_is_candidate (docs_path : path) (p : page) :
  sanitize_filename (name p) <> [] ->
  In (filename_of p) (listdir docs_path) ->
  is_file (joinpath docs_path (filename_of p)) = true ->
  In (joinpath docs_path (filename_of p))
     (candidate_files lower_nonascii listdir is_file docs_path).
Proof.
  intros Hname Hlisted Hfile. unfold candidate_files.
  apply filter_In. split.
  - unfold iterdir. apply in_map. exact Hlisted.
  - rewrite Hfile. unfold filename_of.
    rewrite (suffix_of_exported docs_path _ Hname). reflexivity.
Qed.

(** X14: a page whose title is made only of characters that the sanitizer
    replaces or strips is written to the file [.txt], which has no suffix
    and is never a candidate of the uploader. *)
Theorem degenerate_file_is_no_candidate (docs_path : path) (p : page) :
  forallb strippable (name p) = true ->
  filename_of p = lit ".txt"
  /\ ~ In (joinpath docs_path (filename_of p))
          (candidate_files lower_nonascii listdir is_file docs_path).
Proof.
  intros Hall.
  assert (Hname : filename_of p = lit ".txt").
  { unfold filename_of.
    rewrite (proj2 (sanitize_filename_nil_iff_stripped (name p))
               (proj2 (stripped_name_nil_iff (name p)) Hall)).
    reflexivity. }
  split; [exact Hname|].
  rewrite Hname. unfold candidate_files. rewrite filter_In.
  intros [_ H]. apply andb_true_iff in H. destruct H as [_ H].
  unfold suffix in H. rewrite path_name_joinpath in H.
  vm_compute in H. discriminate.
Qed.

End ExporterToUploader.

Lemma exported_file_is_candidate_witness :
  In (joinpath docs (lit "a.txt"))
     (candidate_files identity_lower example_listdir example_is_file docs).
Proof.
  apply (exported_file_is_candidate identity_lower example_listdir
           example_is_file docs (Page (lit "a") (inr (lit "Text")) None)).
  - vm_compute. discriminate.
  - vm_compute. auto.
  - reflexivity.
Defined.

Lemma degenerate_file_is_no_candidate_witness :
  filename_of (Page (lit "?? ..") (inr (lit "Text")) None) = lit ".txt"
  /\ ~ In (joinpath docs
             (filename_of (Page (lit "?? ..") (inr (lit "Text")) None)))
          (candidate_files identity_lower example_listdir example_is_file docs).
Proof.
  apply (degenerate_file_is_no_candidate identity_lower example_listdir
           example_is_file docs (Page (lit "?? ..") (inr (lit "Text")) None)).
  reflexivity.
Defined.

(** ** The scheme of the wiki URL *)

Lemma replace_scan_skip old new (passed : str) : forall s,
  replace_scan old new (length passed) (passed ++ s)
  = replace_scan old new 0 s.
Proof.
  induction passed as [|c passed IH]; intros s; simpl.
  - reflexivity.
  - apply IH.
Qed.

Lemma replace_no_occurrence old new s :
  occurs old s = false -> replace old new s = s.
Proof.
  unfold replace. induction s as [|c s IH]; [reflexivity|].
  cbn [occurs replace_scan]. intros H.
  apply orb_false_iff in H. destruct H as [Hhere Hrest].
  rewrite Hhere, (IH Hrest). reflexivity.
Qed.

(** X15: a URL made of [http://] or [https://] and a host in which that
    prefix does not occur again is split into the scheme and the host; a URL
    with neither prefix is kept, with the scheme [https]. *)
Theorem split_scheme_round_trip (host : str) :
  (occurs (lit "http://") host = false ->
   split_scheme (lit "http://" ++ host) = (lit "http", host))
  /\ (occurs (lit "https://") host = false ->
      split_scheme (lit "https://" ++ host) = (lit "https", host))
  /\ (has_prefix (lit "http://") host = false ->
      has_prefix (lit "https://") host = false ->
      split_scheme host = (lit "https", host)).
Proof.
  split; [|split].
  - intros H. unfold split_scheme, replace.
    change (has_prefix (lit "http://") (lit "http://" ++ host)) with true.
    cbv iota. f_equal.
    change (replace_scan (lit "http://") [] 0 (lit "http://" ++ host))
      with (replace_scan (lit "http://") [] (length (lit "ttp://"))
              (lit "ttp://" ++ host)).
    rewrite replace_scan_skip. apply replace_no_occurrence, H.
  - intros H. unfold split_scheme, replace.
    change (has_prefix (lit "http://") (lit "https://" ++ host)) with false.
    change (has_prefix (lit "https://") (lit "https://" ++ host)) with true.
    cbv iota. f_equal.
    change (replace_scan (lit "https://") [] 0 (lit "https://" ++ host))
      with (replace_scan (lit "https://") [] (length (lit "ttps://"))
              (lit "ttps://" ++ host)).
    rewrite replace_scan_skip. apply replace_no_occurrence, H.
  - intros H1 H2. unfold split_scheme. rewrite H1, H2. reflexivity.
Qed.

Lemma split_scheme_round_trip_witness :
  split_scheme (lit "http://wiki.example.com") = (lit "http", lit "wiki.example.com")
  /\ split_scheme (lit "https://wiki.example.com")
     = (lit "https", lit "wiki.example.com")
  /\ split_scheme (lit "wiki.example.com") = (lit "https", lit "wiki.example.com").
Proof.
  destruct (split_scheme_round_trip (lit "wiki.example.com")) as (H1 & H2 & H3).
  split; [|split].
  - apply H1. reflexivity.
  - apply H2. reflexivity.
  - apply H3; reflexivity.
Defined.

(** Every occurrence of the prefix is removed, not only the first. *)
Example split_scheme_removes_every_occurrence :
  split_scheme (lit "http://wiki.example.com/http://mirror")
  = (lit "http", lit "wiki.example.com/mirror").
Proof. vm_compute. reflexivity. Qed.

(** ** The base URL of the client *)

Lemma lstrip_removed chars s :
  exists removed,
    s = removed ++ lstrip chars s /\ Forall (fun c => chars c = true) removed.
Proof.
  induction s as [|c s (removed & IH & Hall)]; simpl.
  - exists []. split; [reflexivity | constructor].
  - destruct (chars c) eqn:Hc.
    + exists (c :: removed). split; [simpl; f_equal; exact IH|].
      constructor; assumption.
    + exists []. split; [reflexivity | constructor].
Qed.

(** X16: the base URL the client keeps is the given one less its trailing
    slashes: it never ends with a slash, and what was removed is made of
    slashes only. *)
Theorem client_base_url_no_trailing_slash (base_url : str) :
  endswith 47%N (client_base_url base_url) = false
  /\ exists removed,
       base_url = client_base_url base_url ++ removed
       /\ Forall (fun c => c = 47%N) removed.
Proof.
  unfold client_base_url, rstrip. split.
  - unfold endswith. rewrite rev_involutive. apply startswith_lstrip.
    reflexivity.
  - destruct (lstrip_removed (in_class (lit "/")) (rev base_url))
      as (removed & H & Hall).
    exists (rev removed). split.
    + rewrite <- rev_app_distr, <- H, rev_involutive. reflexivity.
    + apply Forall_rev. eapply Forall_impl; [|exact Hall].
      intros c Hc. change (lit "/") with [47%N] in Hc. simpl in Hc.
      rewrite orb_false_r in Hc. apply N.eqb_eq, Hc.
Qed.

(** * Further properties of the uploader *)

Section UploadLoopRequests.

Context {service : Type}.
Variable post_upload : service -> path -> service * result json.
Variable post_update_embeddings :
  service -> json -> json -> service * result unit.

Local Abbreviation upload_file :=
  (upload_file post_upload post_update_embeddings).
Local Abbreviation upload_loop :=
  (upload_loop post_upload post_update_embeddings).

(** One run of the body makes one upload request, for its file, whatever
    follows; it makes at most one embedding request, and only for a file it
    counts as uploaded. *)
Lemma upload_file_requests slug total i f (s : state) :
  let s' := fst (upload_file slug total i f s) in
  upload_requests (out s') = upload_requests (out s) ++ [PostUpload f]
  /\ embedded s' + length (embedding_requests (out s))
     <= embedded s + length (embedding_requests (out s'))
  /\ length (embedding_requests (out s')) + uploaded s
     <= length (embedding_requests (out s)) + uploaded s'.
Proof.
  unfold Uploader.upload_file, upload_document, add_document_to_workspace,
    try_except, bind, call, lift, ret, incr_uploaded, incr_embedded,
    emit, modify, upload_requests, embedding_requests.
  destruct s as [up em sv log]. simpl.
  destruct (post_upload sv f) as [sv1 [e | result]]; simpl;
    [|destruct (truthy result); simpl;
      [destruct (document_location result) as [e | loc]; simpl;
       [|destruct (truthy loc); simpl;
         [destruct (post_update_embeddings sv1 slug loc) as [sv2 [e | u]];
          simpl|]]|]];
    rewrite ?filter_app; simpl;
    rewrite ?app_nil_r, <- ?app_assoc, ?length_app; simpl;
    (split; [reflexivity | lia]).
Qed.

Lemma for_enumerate_requests slug total files : forall start (s : state),
  let run := for_enumerate (upload_file slug total) start files s in
  (exists k,
     k <= length files
     /\ upload_requests (out (fst run))
        = upload_requests (out s) ++ map PostUpload (firstn k files)
     /\ (snd run = inr tt -> k = length files))
  /\ embedded (fst run) + length (embedding_requests (out s))
     <= embedded s + length (embedding_requests (out (fst run)))
  /\ length (embedding_requests (out (fst run))) + uploaded s
     <= length (embedding_requests (out s)) + uploaded (fst run).
Proof.
  induction files as [|f files IH]; intros start s; cbv zeta.
  - simpl. split; [|lia]. exists 0. simpl. rewrite app_nil_r. auto.
  - cbn [for_enumerate]. unfold bind.
    pose proof (upload_file_requests slug total start f s) as Hstep.
    cbv zeta in Hstep.
    destruct (upload_file slug total start f s) as [s1 [e | u]];
      cbn [fst snd] in *; destruct Hstep as (Hreq & Hemb & Hup).
    + split; [|lia]. exists 1. simpl. split; [lia|].
      split; [exact Hreq | discriminate].
    + specialize (IH (S start) s1). cbv zeta in IH.
      destruct IH as ((k & Hk & Hreqs & Hend) & IHemb & IHup).
      split; [|lia]. exists (S k). simpl. split; [lia|].
      split; [|intros H; f_equal; exact (Hend H)].
      rewrite Hreqs, Hreq, <- app_assoc. reflexivity.
Qed.


(** X18: at the end of the loop, however it ends, the files counted as
    embedded are at most the embedding requests made, and these are at most
    the files counted as uploaded. *)
Theorem upload_loop_embedding_requests slug (files : list path) (sv : service) :
  let final := fst (upload_loop slug files (initial sv)) in
  embedded final <= length (embedding_requests (out final))
  /\ length (embedding_requests (out final)) <= uploaded final.
Proof.
  cbv zeta. unfold Uploader.upload_loop.
  destruct (for_enumerate_requests slug (length files) files 1 (initial sv))
    as (_ & Hemb & Hup).
  cbv zeta in Hemb, Hup. simpl in Hemb, Hup. lia.
Qed.

End UploadLoopRequests.

Section UploadLoopOutcomes.

Context {service : Type}.
Variable post_upload : service -> path -> service * result json.
Variable post_update_embeddings :
  service -> json -> json -> service * result unit.

Local Abbreviation upload_file :=
  (upload_file post_upload post_update_embeddings).
Local Abbreviation upload_loop :=
  (upload_loop post_upload post_update_embeddings).

(** X19: when every body the upload endpoint answers with is a dict whose
    [documents] entry, if any, is a list that starts with a dict, the loop
    goes through all the files and ends without an exception, whatever
    uploads and embeddings fail. *)
Theorem upload_loop_never_raises_when_well_formed slug (files : list path)
        (sv : service) :
  (forall sv0 f sv1 body,
     post_upload sv0 f = (sv1, inr body) -> well_formed_response body = true) ->
  snd (upload_loop slug files (initial sv)) = inr tt.
Proof.
  intros Hwf. unfold Uploader.upload_loop. generalize (length files) at 1.
  intros total. generalize 1 as start. generalize (initial sv) as s.
  induction files as [|f files IH]; intros s start; simpl; [reflexivity|].
  unfold bind.
  pose proof (upload_file_no_exception post_upload post_update_embeddings
                slug total start f s) as Hstep.
  destruct (upload_file slug total start f s) as [s1 [e | u]]; simpl in *.
  - assert (H : inl e = inr tt :> result unit); [|discriminate H].
    apply Hstep. intros body Hbody.
    destruct (post_upload (server s) f) as [sv1 r] eqn:Hanswer.
    simpl in Hbody. subst r. exact (Hwf _ _ _ _ Hanswer).
  - apply IH.
Qed.

(** X20: a body without a [documents] entry is taken for an uploaded file
    with no location: the file is counted as uploaded, no embedding is
    requested, and the loop pauses and goes on. *)
Theorem upload_file_without_documents slug total i f (s : state) sv1 members :
  post_upload (server s) f = (sv1, inr (JObj members)) ->
  members <> [] ->
  dict_lookup (lit "documents") members = None ->
  upload_file slug total i f s
  = (State (uploaded s + 1) (embedded s) sv1
       (out s ++ [Print (MsgUploading i total (path_name f)); PostUpload f;
                  Sleep 500]),
     inr tt).
Proof.
  intros Hanswer Hmembers Hdocs.
  unfold Uploader.upload_file, upload_document, try_except, bind, call, lift,
    ret, incr_uploaded, emit, modify.
  destruct s as [up em sv log]. simpl in *. rewrite Hanswer. simpl.
  destruct members as [|member members]; [congruence|]. simpl.
  unfold document_location, py_get. rewrite Hdocs. simpl.
  rewrite <- !app_assoc. reflexivity.
Qed.

(** X21: a file whose upload raises, or is answered by a body that is
    empty or otherwise false, is skipped: the body of the loop ends without
    an exception, the counters are unchanged, and there is neither an
    embedding request nor a pause. *)
Theorem upload_file_skips_failed_upload slug total i f (s : state) :
  (forall body, snd (post_upload (server s) f) = inr body ->
                truthy body = false) ->
  let run := upload_file slug total i f s in
  snd run = inr tt
  /\ uploaded (fst run) = uploaded s
  /\ embedded (fst run) = embedded s
  /\ embedding_requests (out (fst run)) = embedding_requests (out s)
  /\ pauses (fst run) = pauses s.
Proof.
  unfold Uploader.upload_file, upload_document, try_except, bind, call, lift,
    ret, incr_uploaded, emit, modify, embedding_requests, pauses.
  destruct s as [up em sv log]. simpl.
  destruct (post_upload sv f) as [sv1 [e | body]]; simpl; intros Hfalse.
  - rewrite !filter_app. simpl. rewrite !app_nil_r. repeat split.
  - rewrite (Hfalse body eq_refl). simpl.
    rewrite !filter_app. simpl. rewrite !app_nil_r. repeat split.
Qed.

End UploadLoopOutcomes.

Lemma upload_loop_never_raises_when_well_formed_witness :
  snd (upload_loop steady_upload steady_update_embeddings example_slug
         example_files (initial tt)) = inr tt.
Proof.
  apply upload_loop_never_raises_when_well_formed.
  intros sv0 f sv1 body H. unfold steady_upload in H.
  inversion H. reflexivity.
Defined.

Lemma upload_file_without_documents_witness :
  upload_file silent_upload steady_update_embeddings example_slug 2 1
    (joinpath docs (lit "a.txt")) (initial tt)
  = (State 1 0 tt
       [Print (MsgUploading 1 2 (lit "a.txt"));
        PostUpload (joinpath docs (lit "a.txt")); Sleep 500],
     inr tt).
Proof.
  apply (upload_file_without_documents silent_upload steady_update_embeddings
           example_slug 2 1 (joinpath docs (lit "a.txt")) (initial tt) tt
           [(lit "success", JBool true)]).
  - reflexivity.
  - discriminate.
  - reflexivity.
Defined.

Lemma upload_file_skips_failed_upload_witness :
  let run :=
    upload_file failing_upload steady_update_embeddings example_slug 2 1
      (joinpath docs (lit "a.txt")) (initial tt) in
  snd run = inr tt
  /\ uploaded (fst run) = 0
  /\ embedded (fst run) = 0
  /\ embedding_requests (out (fst run)) = []
  /\ pauses (fst run) = 0.
Proof.
  apply (upload_file_skips_failed_upload failing_upload
           steady_update_embeddings example_slug 2 1
           (joinpath docs (lit "a.txt")) (initial tt)).
  intros body H. discriminate H.
Defined.

(** ** The setup of [upload_documents] *)

Lemma find_workspace_some name items ws :
  find_workspace name items = inr (Some ws) ->
  In ws items
  /\ truthy ws = true
  /\ exists n, py_get ws (lit "name") JNull = inr n /\ json_is_str n name = true.
Proof.
  induction items as [|w items IH]; simpl; [discriminate|].
  destruct (py_get w (lit "name") JNull) as [e | n] eqn:Hget; [discriminate|].
  destruct (json_is_str n name) eqn:Hname.
  - intros H. inversion H; subst w. split; [auto|]. split; [|eauto].
    destruct ws as [| | | | | |members]; try discriminate.
    destruct members; [|reflexivity].
    simpl in Hget. inversion Hget; subst n. discriminate.
  - intros H. destruct (IH H) as (Hin & Hrest). split; [auto | exact Hrest].
Qed.

Section Resolver.

Context {service : Type}.
Variable get_workspaces_body : service -> service * result json.
Variable post_new_workspace : service -> str -> service * result json.

Local Abbreviation resolve_workspace :=
  (resolve_workspace get_workspaces_body post_new_workspace).

(** X22: when the listing holds a workspace of the wanted name, the first
    such workspace is used as it is and no creation is requested. *)
Theorem resolve_workspace_reuses name (s : setup_state) sv1 body items ws :
  get_workspaces_body (setup_server s) = (sv1, inr body) ->
  py_get body (lit "workspaces") (JArr []) = inr (JArr items) ->
  find_workspace name items = inr (Some ws) ->
  resolve_workspace name s
  = (Setup sv1
       (setup_out s ++ [SetupPrint (MsgLookingFor name); GetWorkspaces;
                        SetupPrint (MsgFoundWorkspace name)]),
     inr ws).
Proof.
  intros Hlist Hget Hfind.
  destruct (find_workspace_some name items ws Hfind) as (_ & Htruthy & _).
  unfold Uploader.resolve_workspace, run_bind, say, run_py, run_ret,
    get_workspaces, note, setup_call, try_except, bind, lift, ret, modify.
  destruct s as [sv log]. simpl in *. rewrite Hlist. simpl.
  rewrite Hget. simpl. rewrite Hfind. simpl. rewrite Htruthy. simpl.
  rewrite <- !app_assoc. reflexivity.
Qed.

(** X23: when the listing holds no workspace of the wanted name and the
    creation raises or gives nothing, the run stops with [sys.exit(1)],
    after one request for the listing and one for the creation. *)
Theorem resolve_workspace_exits name (s : setup_state) sv1 body items :
  get_workspaces_body (setup_server s) = (sv1, inr body) ->
  py_get body (lit "workspaces") (JArr []) = inr (JArr items) ->
  find_workspace name items = inr None ->
  (forall answer w,
     snd (post_new_workspace sv1 name) = inr answer ->
     py_get answer (lit "workspace") (JObj []) = inr w ->
     truthy w = false) ->
  let run := resolve_workspace name s in
  snd run = inl (SystemExit 1)
  /\ setup_requests (setup_out (fst run))
     = setup_requests (setup_out s) ++ [GetWorkspaces; PostNewWorkspace name].
Proof.
  intros Hlist Hget Hfind Hcreate.
  unfold Uploader.resolve_workspace, run_bind, say, run_py, run_ret, sys_exit,
    get_workspaces, create_workspace, note, setup_call, try_except, bind,
    lift, ret, modify, setup_requests.
  destruct s as [sv log]. simpl in *. rewrite Hlist. simpl.
  rewrite Hget. simpl. rewrite Hfind. simpl.
  destruct (post_new_workspace sv1 name) as [sv2 [e | answer]]; simpl in *.
  - rewrite !filter_app. simpl. rewrite !app_nil_r, <- !app_assoc.
    split; reflexivity.
  - destruct (py_get answer (lit "workspace") (JObj [])) as [e | w] eqn:Hw;
      simpl.
    + rewrite !filter_app. simpl. rewrite !app_nil_r, <- !app_assoc.
      split; reflexivity.
    + rewrite (Hcreate answer w eq_refl Hw). simpl.
      rewrite !filter_app. simpl. rewrite !app_nil_r, <- !app_assoc.
      split; reflexivity.
Qed.

(** X24: when the listing of the workspaces raises, the resolver takes it
    for an empty listing: it requests the creation of a workspace of the
    wanted name, and uses the one it is given. *)
Theorem resolve_workspace_creates_after_listing_failure
        name (s : setup_state) sv1 e sv2 answer w :
  get_workspaces_body (setup_server s) = (sv1, inl e) ->
  post_new_workspace sv1 name = (sv2, inr answer) ->
  py_get answer (lit "workspace") (JObj []) = inr w ->
  truthy w = true ->
  resolve_workspace name s
  = (Setup sv2
       (setup_out s ++ [SetupPrint (MsgLookingFor name); GetWorkspaces;
                        SetupPrint (MsgWorkspacesError e);
                        SetupPrint (MsgCreatingWorkspace name);
                        PostNewWorkspace name]),
     inr w).
Proof.
  intros Hlist Hcreate Hw Htruthy.
  unfold Uploader.resolve_workspace, run_bind, say, run_py, run_ret, sys_exit,
    get_workspaces, create_workspace, note, setup_call, try_except, bind,
    lift, ret, modify.
  destruct s as [sv log]. simpl in *. rewrite Hlist. simpl.
  rewrite Hcreate. simpl. rewrite Hw. simpl. rewrite Htruthy. simpl.
  rewrite <- !app_assoc. reflexivity.
Qed.

End Resolver.

Lemma resolve_workspace_reuses_witness :
  resolve_workspace listing_with_import create_refused (lit "MediaWiki Import")
    (Setup tt [])
  = (Setup tt
       [SetupPrint (MsgLookingFor (lit "MediaWiki Import")); GetWorkspaces;
        SetupPrint (MsgFoundWorkspace (lit "MediaWiki Import"))],
     inr import_workspace).
Proof.
  eapply (resolve_workspace_reuses listing_with_import create_refused
            (lit "MediaWiki Import") (Setup tt [])); reflexivity.
Defined.

Lemma resolve_workspace_exits_witness :
  let run :=
    resolve_workspace listing_empty create_refused (lit "MediaWiki Import")
      (Setup tt []) in
  snd run = inl (SystemExit 1)
  /\ setup_requests (setup_out (fst run))
     = [GetWorkspaces; PostNewWorkspace (lit "MediaWiki Import")].
Proof.
  eapply (resolve_workspace_exits listing_empty create_refused
            (lit "MediaWiki Import") (Setup tt [])); try reflexivity.
  intros answer w H. discriminate H.
Defined.

Lemma resolve_workspace_creates_after_listing_failure_witness :
  resolve_workspace listing_down create_granted (lit "MediaWiki Import")
    (Setup tt [])
  = (Setup tt
       [SetupPrint (MsgLookingFor (lit "MediaWiki Import")); GetWorkspaces;
        SetupPrint (MsgWorkspacesError connection_error);
        SetupPrint (MsgCreatingWorkspace (lit "MediaWiki Import"));
        PostNewWorkspace (lit "MediaWiki Import")],
     inr (JObj [(lit "name", JStr (lit "MediaWiki Import"));
                (lit "slug", JStr (lit "mediawiki-import-2"))])).
Proof.
  eapply (resolve_workspace_creates_after_listing_failure listing_down
            create_granted (lit "MediaWiki Import") (Setup tt []));
    reflexivity.
Defined.

Section UploadDocuments.

Context {service : Type}.
Variable get_ping : service -> service * result Z.
Variable get_workspaces_body : service -> service * result json.
Variable post_new_workspace : service -> str -> service * result json.
Variable post_upload : service -> path -> service * result json.
Variable post_update_embeddings :
  service -> json -> json -> service * result unit.
Variable lower_nonascii : str -> nat -> str.
Variable path_exists : path -> bool.
Variable scandir : path -> result (list str).
Variable is_file : path -> bool.

Local Abbreviation upload_documents :=
  (upload_documents get_ping get_workspaces_body post_new_workspace
     post_upload post_update_embeddings lower_nonascii path_exists scandir
     is_file).

(** X25: when the liveness check raises or is answered by a status other
    than 200, the run stops with [sys.exit(1)] and the check is the only
    request made. *)
Theorem upload_documents_exits_when_unreachable url name dir
        (s : setup_state) :
  (forall status_code,
     snd (get_ping (setup_server s)) = inr status_code ->
     status_code <> 200%Z) ->
  let run := upload_documents url name dir s in
  snd run = inl (SystemExit 1)
  /\ setup_requests (setup_out (fst run))
     = setup_requests (setup_out s) ++ [GetPing].
Proof.
  intros Hping.
  unfold Uploader.upload_documents, run_bind, say, run_py, run_ret, sys_exit,
    ping, note, setup_call, try_except, bind, lift, ret, modify,
    setup_requests.
  destruct s as [sv log]. simpl in *.
  destruct (get_ping sv) as [sv1 [e | status_code]]; simpl in *.
  - rewrite !filter_app. simpl. rewrite ?app_nil_r, <- ?app_assoc.
    split; reflexivity.
  - destruct (Z.eqb_spec status_code 200) as [Heq | Hne].
    + exfalso. exact (Hping status_code eq_refl Heq).
    + simpl. rewrite !filter_app. simpl. rewrite ?app_nil_r, <- ?app_assoc.
      split; reflexivity.
Qed.

End UploadDocuments.

Lemma upload_documents_exits_when_unreachable_witness :
  let run :=
    upload_documents ping_down listing_with_import create_refused
      steady_upload steady_update_embeddings identity_lower
      (fun _ => true) (fun _ => inr [lit "a.txt"]) (fun _ => true)
      (lit "http://localhost:3001") (lit "MediaWiki Import") docs
      (Setup tt []) in
  snd run = inl (SystemExit 1)
  /\ setup_requests (setup_out (fst run)) = [GetPing].
Proof.
  apply (upload_documents_exits_when_unreachable ping_down listing_with_import
           create_refused steady_upload steady_update_embeddings
           identity_lower (fun _ => true) (fun _ => inr [lit "a.txt"])
           (fun _ => true) (lit "http://localhost:3001")
           (lit "MediaWiki Import") docs (Setup tt [])).
  intros status_code H. discriminate H.
Defined.

Section UploadDocumentsOutcome.

Context {service : Type}.
Variable get_ping : service -> service * result Z.
Variable get_workspaces_body : service -> service * result json.
Variable post_new_workspace : service -> str -> service * result json.
Variable post_upload : service -> path -> service * result json.
Variable post_update_embeddings :
  service -> json -> json -> service * result unit.
Variable lower_nonascii : str -> nat -> str.
Variable path_exists : path -> bool.
Variable scandir : path -> result (list str).
Variable is_file : path -> bool.

Local Abbreviation upload_documents :=
  (upload_documents get_ping get_workspaces_body post_new_workspace
     post_upload post_update_embeddings lower_nonascii path_exists scandir
     is_file).



End UploadDocumentsOutcome.
